(** * torrt: the AniLibria release selector and the qBittorrent RPC session

    A shallow embedding of [torrt/trackers/anilibria.py] and
    [torrt/rpc/qbittorrent.py], and the properties of the two modules.

    Python values are modelled as follows.
    - [str] is a sequence of Unicode code points ([list N]).  The ASCII rows
      of the Unicode character database are written out; the rows of the
      other code points are taken from a table [unicode_db], over which
      every general theorem is quantified.
    - a [dict] is an association list in insertion order: assigning to a key
      that is present replaces its value in place, a new key goes to the end.
    - an exception is a value [Raise e] of the type [result]. *)

From Stdlib Require Import List NArith ZArith Bool Lia String Ascii DecimalString.
From Stdlib Require Import Sorting.Sorted Sorting.Permutation.
From Stdlib Require PrimFloat.
Import ListNotations.

Set Implicit Arguments.
Set Warnings "-register-all".

(** ** Strings *)

Definition str := list N.

(** An ASCII literal as a Python [str]. *)
Definition py (s : string) : str :=
  List.map N_of_ascii (list_ascii_of_string s).

(** [a == b] *)
Fixpoint str_eqb (a b : str) : bool :=
  match a, b with
  | [], [] => true
  | x :: a', y :: b' => (x =? y)%N && str_eqb a' b'
  | _, _ => false
  end.

Definition is_ascii (c : N) : bool := (c <? 128)%N.

Definition ascii_str (s : str) : bool := forallb is_ascii s.

(** ** Exceptions *)

Inductive exn : Type :=
| IndexError | KeyError | ValueError | TypeError | AttributeError
| QBittorrentRPCException.

Inductive result (A : Type) : Type :=
| Ok (a : A)
| Raise (e : exn).
Arguments Ok {A} a.
Arguments Raise {A} e.

Definition bind {A B} (m : result A) (f : A -> result B) : result B :=
  match m with
  | Ok a => f a
  | Raise e => Raise e
  end.

Declare Scope py_scope.
Delimit Scope py_scope with py.
Notation "x <- m ;; k" := (bind m (fun x => k))
  (at level 61, m at next level, right associativity) : py_scope.
Local Open Scope py_scope.

(** ** Dictionaries in insertion order *)

Section Dict.

Variable V : Type.

Definition dict := list (str * V).

Fixpoint dict_get (k : str) (d : dict) : option V :=
  match d with
  | [] => None
  | (k', v) :: d' => if str_eqb k k' then Some v else dict_get k d'
  end.

(** [d[k] = v] *)
Fixpoint dict_set (k : str) (v : V) (d : dict) : dict :=
  match d with
  | [] => [(k, v)]
  | (k', v') :: d' =>
      if str_eqb k k' then (k', v) :: d' else (k', v') :: dict_set k v d'
  end.

Definition dict_has (k : str) (d : dict) : bool :=
  match dict_get k d with Some _ => true | None => false end.

Definition keys (d : dict) : list str := List.map fst d.

End Dict.

(** ** Decoded JSON documents

    What [response.json()] returns.  A number written with a fraction or an
    exponent, and each of [NaN], [Infinity] and [-Infinity], is decoded to a
    Python [float], an IEEE 754 binary64 value: [1e-400] is decoded to
    [0.0] and [1e400] to [inf]. *)

Inductive jvalue : Type :=
| JNull
| JBool (b : bool)
| JInt (z : Z)
| JFloat (f : PrimFloat.float)
| JStr (s : str)
| JArr (l : list jvalue)
| JObj (d : list (str * jvalue)).

(** [bool(v)]: a float is false when it equals zero, so [0.0] and [-0.0] are
    false, and [nan] and the infinities are true. *)
Definition truthy (v : jvalue) : bool :=
  match v with
  | JNull => false
  | JBool b => b
  | JInt z => negb (z =? 0)%Z
  | JFloat f => negb (PrimFloat.eqb f PrimFloat.zero)
  | JStr s => match s with [] => false | _ => true end
  | JArr l => match l with [] => false | _ => true end
  | JObj d => match d with [] => false | _ => true end
  end.

(** [o.get(k, dflt)]: only a dict has the method. *)
Definition py_get (o : jvalue) (k : str) (dflt : jvalue) : result jvalue :=
  match o with
  | JObj d => Ok (match dict_get k d with Some v => v | None => dflt end)
  | _ => Raise AttributeError
  end.

(** [o[k]] for a string [k] *)
Definition getitem (o : jvalue) (k : str) : result jvalue :=
  match o with
  | JObj d =>
      match dict_get k d with Some v => Ok v | None => Raise KeyError end
  | _ => Raise TypeError
  end.

(** The values that [for x in o] goes through. *)
Definition py_iter (o : jvalue) : result (list jvalue) :=
  match o with
  | JArr l => Ok l
  | JObj d => Ok (List.map (fun kv => JStr (fst kv)) d)
  | JStr s => Ok (List.map (fun c => JStr [c]) s)
  | _ => Raise TypeError
  end.

Fixpoint mapM {A B} (f : A -> result B) (l : list A) : result (list B) :=
  match l with
  | [] => Ok []
  | a :: l' => b <- f a ;; bs <- mapM f l' ;; Ok (b :: bs)
  end.

(** Comparison of tuples of integers, [a < b]. *)
Fixpoint tuple_ltb (a b : list Z) : bool :=
  match a, b with
  | [], [] => false
  | [], _ :: _ => true
  | _ :: _, [] => false
  | x :: a', y :: b' =>
      if (x <? y)%Z then true
      else if (y <? x)%Z then false
      else tuple_ltb a' b'
  end.

Definition tuple_leb (a b : list Z) : bool := negb (tuple_ltb b a).

(** [sorted(..., reverse=True)] on the pairs of a key and its item: the sort
    is stable, so an item stays before the later items of an equal key. *)
Fixpoint insert_desc {A} (x : list Z * A) (l : list (list Z * A)) :=
  match l with
  | [] => [x]
  | y :: l' =>
      if tuple_leb (fst y) (fst x) then x :: y :: l'
      else y :: insert_desc x l'
  end.

Fixpoint sort_desc {A} (l : list (list Z * A)) : list (list Z * A) :=
  match l with
  | [] => []
  | x :: l' => insert_desc x (sort_desc l')
  end.

(** [x] may stand before [y] in a list sorted with [reverse=True]. *)
Definition desc {A} (x y : list Z * A) : Prop :=
  tuple_leb (fst y) (fst x) = true.

(** [str.split(sep)] with a separator of one code point *)
Fixpoint split (sep : N) (s : str) : list str :=
  match s with
  | [] => [[]]
  | c :: s' =>
      if (c =? sep)%N then [] :: split sep s'
      else match split sep s' with
           | p :: ps => (c :: p) :: ps
           | [] => [[c]]
           end
  end.

(** [d[k]] on a [defaultdict(list)]; the entry that a failed lookup would
    add is written by the [dict_set] that follows it. *)
Definition defaultdict_get {A} (k : str) (d : dict (list A)) : list A :=
  match dict_get k d with
  | Some l => l
  | None => []
  end.

Definition HOST : str := py "https://www.anilibria.tv".

(** ** The Unicode character database

    [sanitize_quality], [REGEX_RANGE] and [int] act on [str], so on every
    code point.  The rows of the ASCII code points are part of the
    definitions below; those of the other code points are a parameter. *)

Record unicode_db : Type := {
  (** [str.isalnum] of a code point from 128 on *)
  uni_isalnum : N -> bool;
  (** the digit value of a decimal digit (category Nd) from 128 on *)
  uni_decimal : N -> option N;
  (** [str.isspace] of a code point from 128 on *)
  uni_isspace : N -> bool;
  (** [str.lower] of a string that has a code point from 128 on; the
      lowercase mapping is neither one code point to one (U+0130 gives two)
      nor free of context (final sigma) *)
  uni_lower : str -> str
}.

(** The rows that the examples of this file evaluate: U+0130 LATIN CAPITAL
    LETTER I WITH DOT ABOVE is a letter whose lowercase is U+0069 U+0307,
    U+0307 COMBINING DOT ABOVE is a mark (not alphanumeric), U+0660..U+0669
    are the ARABIC-INDIC digits, U+00A0 is a space.  No theorem depends on
    the rows this table gives to other code points. *)
Definition ucd_rows : unicode_db := {|
  uni_isalnum c := (c =? 304)%N || ((1632 <=? c) && (c <=? 1641))%N;
  uni_decimal c :=
    if ((1632 <=? c) && (c <=? 1641))%N then Some (c - 1632)%N else None;
  uni_isspace c := (c =? 160)%N;
  uni_lower s :=
    flat_map (fun c =>
      if (c =? 304)%N then [105; 775]%N
      else if ((65 <=? c) && (c <=? 90))%N then [c + 32]%N
      else [c]) s
|}.

Section Tracker.

Variable U : unicode_db.

Definition ascii_upper (c : N) : bool := ((65 <=? c) && (c <=? 90))%N.
Definition ascii_letter (c : N) : bool :=
  ascii_upper c || ((97 <=? c) && (c <=? 122))%N.
Definition ascii_digit (c : N) : bool := ((48 <=? c) && (c <=? 57))%N.

(** [\w] on [str]: alphanumeric or the underscore. *)
Definition is_word (c : N) : bool :=
  (c =? 95)%N ||
  (if is_ascii c then ascii_letter c || ascii_digit c else uni_isalnum U c).

(** [REGEX_NON_WORD = re.compile(r'[\W_]')], on one code point. *)
Definition REGEX_NON_WORD (c : N) : bool :=
  negb (is_word c) || (c =? 95)%N.

(** [REGEX_NON_WORD.sub('', s)]: the pattern matches one code point at a
    time, so every matching code point is deleted. *)
Definition REGEX_NON_WORD_sub (s : str) : str :=
  filter (fun c => negb (REGEX_NON_WORD c)) s.

Definition ascii_lower (c : N) : N :=
  if ascii_upper c then (c + 32)%N else c.

(** [str.lower]. *)
Definition lower (s : str) : str :=
  if ascii_str s then List.map ascii_lower s else uni_lower U s.

(** [sanitize_quality(quality_str: Optional[str]) -> str]:
    [if quality_str:] holds for a string that is not empty. *)
Definition sanitize_quality (quality_str : option str) : str :=
  match quality_str with
  | Some (c :: s) => lower (REGEX_NON_WORD_sub (c :: s))
  | _ => []
  end.

(** *** [REGEX_RANGE = re.compile(r'\d+-\d+')] *)

(** The value of a decimal digit; [\d] and [int] agree on what a digit is. *)
Definition digit_val (c : N) : option N :=
  if is_ascii c then (if ascii_digit c then Some (c - 48)%N else None)
  else uni_decimal U c.

Definition is_digit (c : N) : bool :=
  match digit_val c with Some _ => true | None => false end.

Fixpoint skip_digits (s : str) : str :=
  match s with
  | c :: s' => if is_digit c then skip_digits s' else s
  | [] => []
  end.

(** [REGEX_RANGE.match(s)] is not [None]: [match] anchors the pattern at the
    start of [s] only.  A digit is not a hyphen, so the first [\d+] takes
    every leading digit. *)
Definition REGEX_RANGE_match (s : str) : bool :=
  match s with
  | c :: s' =>
      is_digit c &&
      match skip_digits s' with
      | h :: d :: _ => (h =? 45)%N && is_digit d
      | _ => false
      end
  | [] => false
  end.

(** *** [int(s)] for a string, base ten *)

Definition is_space (c : N) : bool :=
  if is_ascii c then ((9 <=? c) && (c <=? 13))%N || (c =? 32)%N
  else uni_isspace U c.

Fixpoint lstrip (s : str) : str :=
  match s with
  | c :: s' => if is_space c then lstrip s' else s
  | [] => []
  end.

Definition strip (s : str) : str := rev (lstrip (rev (lstrip s))).

(** Digits, with single underscores between them. *)
Fixpoint parse_digits (acc : Z) (after_digit : bool) (s : str) : option Z :=
  match s with
  | [] => if after_digit then Some acc else None
  | c :: s' =>
      if (c =? 95)%N then
        if after_digit then parse_digits acc false s' else None
      else
        match digit_val c with
        | Some d => parse_digits (10 * acc + Z.of_N d)%Z true s'
        | None => None
        end
  end.

(** [sys.int_info.default_max_str_digits]: [int] raises [ValueError] for a
    literal of more digits, whatever the digits are. *)
Definition int_max_str_digits : nat := 4300.

(** The digits of a literal: the underscores are not counted. *)
Definition count_digits (s : str) : nat :=
  List.length (filter (fun c => negb (c =? 95)%N) s).

Definition py_int (s : str) : result Z :=
  let t := strip s in
  let '(neg, body) :=
    match t with
    | c :: r =>
        if (c =? 45)%N then (true, r)
        else if (c =? 43)%N then (false, r)
        else (false, t)
    | [] => (false, [])
    end in
  match parse_digits 0 false body with
  | Some z =>
      if (int_max_str_digits <? count_digits body)%nat then Raise ValueError
      else Ok (if neg then (- z)%Z else z)
  | None => Raise ValueError
  end.

(** [to_tuple(range_str)]: [tuple(map(int, range_str.split('-')))] *)
Definition to_tuple (range_str : str) : result (list Z) :=
  mapM py_int (split 45 range_str).

(** [sorted(ks, key=self.to_tuple, reverse=True)]: the keys are computed
    first, one per item and in order. *)
Definition sorted_by_to_tuple_reverse (ks : list str) : result (list str) :=
  decorated <- mapM (fun k => t <- to_tuple k ;; Ok (t, k)) ks ;;
  Ok (List.map snd (sort_desc decorated)).

(** [sanitize_quality] on a value of the document: a value that is false
    gives [''] whatever its type, and [REGEX_NON_WORD.sub] takes strings
    only. *)
Definition sanitize_quality_json (v : jvalue) : result str :=
  if truthy v then
    match v with
    | JStr s => Ok (sanitize_quality (Some s))
    | _ => Raise TypeError
    end
  else Ok (sanitize_quality None).

(** [HOST + v] *)
Definition host_plus (v : jvalue) : result str :=
  match v with
  | JStr s => Ok (HOST ++ s)
  | _ => Raise TypeError
  end.

(** The first loop of [find_available_qualities]:
    [series2torrents] is a [defaultdict(list)]. *)
Fixpoint group_by_series (torrents : list jvalue)
    (series2torrents : dict (list jvalue)) : result (dict (list jvalue)) :=
  match torrents with
  | [] => Ok series2torrents
  | torrent :: rest =>
      series <- getitem torrent (py "series") ;;
      match series with
      | JStr s =>
          if REGEX_RANGE_match s then
            group_by_series rest
              (dict_set s (defaultdict_get s series2torrents ++ [torrent])
                        series2torrents)
          else group_by_series rest series2torrents
      | _ => Raise TypeError
      end
  end.

(** The second loop of [find_available_qualities]. *)
Fixpoint fill_qualities (group : list jvalue) (available_qualities : dict str)
    : result (dict str) :=
  match group with
  | [] => Ok available_qualities
  | torrent :: rest =>
      q <- getitem torrent (py "quality") ;;
      quality <- sanitize_quality_json q ;;
      u <- getitem torrent (py "url") ;;
      link <- host_plus u ;;
      fill_qualities rest (dict_set quality link available_qualities)
  end.

(** [sorted_series[0]] *)
Definition first_of {A} (l : list A) : result A :=
  match l with
  | x :: _ => Ok x
  | [] => Raise IndexError
  end.

(** The series whose group is taken, from the items of the torrent list. *)
Definition selected_series (torrents : list jvalue)
    : result (str * dict (list jvalue)) :=
  series2torrents <- group_by_series torrents [] ;;
  sorted_series <- sorted_by_to_tuple_reverse (keys series2torrents) ;;
  s0 <- first_of sorted_series ;;
  Ok (s0, series2torrents).

(** [find_available_qualities], from the decoded response of the API on. *)
Definition find_available_qualities (json : jvalue) : result (dict str) :=
  status <- py_get json (py "status") (JBool false) ;;
  if negb (truthy status) then Ok []
  else
    data <- getitem json (py "data") ;;
    torrents <- getitem data (py "torrents") ;;
    items <- py_iter torrents ;;
    sel <- selected_series items ;;
    let '(s0, series2torrents) := sel in
    fill_qualities (defaultdict_get s0 series2torrents) [].

(** The loop of [get_download_link] over [self.quality_prefs]. *)
Definition normalize_prefs (quality_prefs : list str) : list str :=
  fold_left
    (fun acc pref =>
       let pref := sanitize_quality (Some pref) in
       if existsb (str_eqb pref) acc then acc else acc ++ [pref])
    quality_prefs [].

(** The body of [if available_qualities:] in [get_download_link]. *)
Definition pick_link (self_quality_prefs : list str)
    (available_qualities : dict str) : result str :=
  match available_qualities with
  | first :: _ =>
      let quality_prefs := normalize_prefs self_quality_prefs in
      let preferred_qualities :=
        filter (fun quality => dict_has quality available_qualities)
               quality_prefs in
      match preferred_qualities with
      | [] => Ok (snd first)
      | target_quality :: _ =>
          match dict_get target_quality available_qualities with
          | Some link => Ok link
          | None => Raise KeyError
          end
      end
  | [] => Ok []
  end.

(** [get_download_link], on the decoded response and [self.quality_prefs]. *)
Definition get_download_link (self_quality_prefs : list str) (json : jvalue)
    : result str :=
  available_qualities <- find_available_qualities json ;;
  pick_link self_quality_prefs available_qualities.

End Tracker.

(** * [torrt/rpc/qbittorrent.py] *)

(** The values that the RPC layer puts in its dictionaries. *)
Inductive pyval : Type :=
| PNone
| PStr (s : str)
| PBytes (b : list N)
| PInt (z : Z)
| PDict (d : list (str * pyval)).

Definition cookiejar := list (str * str).

Inductive http_method : Type := GET | POST.

(** A call [method(url, **request_kwargs)]; a keyword that is not passed
    is [None]. *)
Record request : Type := {
  req_method : http_method;
  req_url : str;
  kw_cookies : option cookiejar;
  kw_data : option pyval;
  kw_files : option (dict pyval)
}.

Record response : Type := {
  status_code : Z;
  text : str;
  resp_cookies : option cookiejar;
  (** [response.json()] *)
  resp_json : result jvalue
}.

(** What a call of [requests.get] or [requests.post] does: it returns a
    response or it raises. *)
Inductive outcome : Type :=
| Responded (r : response)
| Failed.

(** What a run does, in order.  [Login_called] marks an entry into [login];
    it is there to count the calls and the code has no counterpart of it. *)
Inductive event : Type :=
| Login_called
| Requested (r : request).

Definition trace := list event.

(** The object: the attributes that [__init__] sets. *)
Record QBittorrentRPC : Type := {
  cookies : option cookiejar;
  user : str;
  password : str;
  enabled : bool;
  host : str;
  port : Z;
  url : str
}.

Definition with_cookies (self : QBittorrentRPC) (c : option cookiejar) :=
  {| cookies := c; user := user self; password := password self;
     enabled := enabled self; host := host self; port := port self;
     url := url self |}.

(** [str(n)] for an integer *)
Definition str_of_int (z : Z) : str := py (NilZero.string_of_int (Z.to_int z)).

(** [__init__] *)
Definition init (url : option str) (host : str) (port : Z)
    (user password : str) (enabled : bool) : QBittorrentRPC :=
  {| cookies := Some [];
     user := user; password := password; enabled := enabled;
     host := host; port := port;
     url := match url with
            | Some u => u
            | None => py "http://" ++ host ++ py ":" ++ str_of_int port ++ py "/"
            end |}.

Definition api_map : dict str :=
  [ (py "login", py "login");
    (py "api_version_path", py "version/api");
    (py "add_torrent", py "command/upload");
    (py "rem_torrent", py "command/delete");
    (py "rem_torrent_with_data", py "command/deletePerm");
    (py "get_torrent", py "query/propertiesGeneral/%s");
    (py "get_torrents", py "query/torrents") ].

(** [d.update(params)] *)
Definition dict_update {V} (d params : dict V) : dict V :=
  fold_left (fun d kv => dict_set (fst kv) (snd kv) d) params d.

(** [build_params(action, params)] *)
Definition build_params (action : option str) (params : option (dict pyval))
    : dict pyval :=
  let document :=
    [(py "action", match action with Some a => PStr a | None => PNone end)] in
  match params with
  | Some params => dict_update document params
  | None => document
  end.

Definition is_None {A} (o : option A) : bool :=
  match o with
  | None => true
  | Some _ => false
  end.

(** [not self.cookies]: [None] or an empty jar *)
Definition no_cookies (c : option cookiejar) : bool :=
  match c with
  | Some (_ :: _) => false
  | _ => true
  end.

(** ** The methods, as state transformers

    A method runs on the object and on the trace so far; it leaves both
    changed also when it raises. *)

Definition M (A : Type) : Type :=
  QBittorrentRPC -> trace -> result A * QBittorrentRPC * trace.

Definition ret {A} (a : A) : M A := fun self tr => (Ok a, self, tr).

Definition raise {A} (e : exn) : M A := fun self tr => (Raise e, self, tr).

Definition bindM {A B} (m : M A) (f : A -> M B) : M B :=
  fun self tr =>
    match m self tr with
    | (Ok a, self', tr') => f a self' tr'
    | (Raise e, self', tr') => (Raise e, self', tr')
    end.

(** [try: m  except Exception as e: h] *)
Definition try_except {A} (m : M A) (h : exn -> M A) : M A :=
  fun self tr =>
    match m self tr with
    | (Ok a, self', tr') => (Ok a, self', tr')
    | (Raise e, self', tr') => h e self' tr'
    end.

Definition get_self : M QBittorrentRPC := fun self tr => (Ok self, self, tr).

Definition set_cookies (c : option cookiejar) : M unit :=
  fun self tr => (Ok tt, with_cookies self c, tr).

Definition emit (e : event) : M unit :=
  fun self tr => (Ok tt, self, tr ++ [e]).

Definition lift {A} (r : result A) : M A := fun self tr => (r, self, tr).

Declare Scope rpc_scope.
Delimit Scope rpc_scope with rpc.
Notation "x <- m ;; k" := (bindM m (fun x => k))
  (at level 61, m at next level, right associativity) : rpc_scope.
Notation "m ;; k" := (bindM m (fun _ => k))
  (at level 61, right associativity) : rpc_scope.

Section RPC.

(** [urllib.parse.urljoin] *)
Variable urljoin : str -> str -> str.

(** The operator [%] on a string and a value *)
Variable str_mod : str -> pyval -> result str.

(** The client on the other side: what a request gets, after what has
    happened so far. *)
Variable server : trace -> request -> outcome.

Local Open Scope rpc_scope.

(** [get_request_url(params)] *)
Definition get_request_url (self : QBittorrentRPC) (params : dict pyval)
    : result str :=
  match dict_get (py "action") params with
  | None => Raise KeyError
  | Some key =>
      match
        match key with
        | PStr k =>
            match dict_get k api_map with
            | Some seg => Ok seg
            | None => Raise KeyError
            end
        | PDict _ => Raise TypeError
        | _ => Raise KeyError
        end
      with
      | Raise e => Raise e
      | Ok url_segment =>
          match dict_get (py "action_params") params with
          | Some p =>
              match str_mod url_segment p with
              | Ok seg => Ok (urljoin (url self) seg)
              | Raise e => Raise e
              end
          | None => Ok (urljoin (url self) url_segment)
          end
      end
  end.

(** [method(url, **request_kwargs)] and the check of the status code *)
Definition send (req : request) : M response :=
  fun self tr =>
    match server tr req with
    | Responded r =>
        if (status_code r =? 200)%Z then (Ok r, self, tr ++ [Requested req])
        else (Raise QBittorrentRPCException, self, tr ++ [Requested req])
    | Failed => (Raise QBittorrentRPCException, self, tr ++ [Requested req])
    end.

(** The request that [query] builds: [requests.get] unless there is a
    ['data'] entry or a [files] argument, and the keywords that are set. *)
Definition request_of (self : QBittorrentRPC) (data : dict pyval)
    (files : option (dict pyval)) (url : str) : request :=
  let request_kwargs_cookies := cookies self in
  let method := GET in
  let '(method, request_kwargs_data) :=
    match dict_get (py "data") data with
    | Some d => (POST, Some d)
    | None => (method, None)
    end in
  let '(method, request_kwargs_files) :=
    match files with
    | Some f => (POST, Some f)
    | None => (method, None)
    end in
  {| req_method := method; req_url := url;
     kw_cookies := request_kwargs_cookies;
     kw_data := request_kwargs_data;
     kw_files := request_kwargs_files |}.

(** [query(data, files)].  The line that logs the action reads
    [data['action']] before the [try] block; every exception inside the
    block comes out as a [QBittorrentRPCException]. *)
Definition query (data : dict pyval) (files : option (dict pyval))
    : M response :=
  match dict_get (py "action") data with
  | None => raise KeyError
  | Some _ =>
      try_except
        (self <- get_self ;;
         url <- lift (get_request_url self data) ;;
         send (request_of self data files url))
        (fun _ => raise QBittorrentRPCException)
  end.

(** The request that [login] makes. *)
Definition login_request (self : QBittorrentRPC) : request :=
  {| req_method := POST;
     req_url := urljoin (url self) (py "login");
     kw_cookies := cookies self;
     kw_data := Some (PDict [(py "username", PStr (user self));
                             (py "password", PStr (password self))]);
     kw_files := None |}.

(** [login()] *)
Definition login : M unit :=
  emit Login_called ;;
  try_except
    (self <- get_self ;;
     let data := PDict [(py "username", PStr (user self));
                        (py "password", PStr (password self))] in
     result <- query (build_params (Some (py "login"))
                                   (Some [(py "data", data)])) None ;;
     if negb (str_eqb (text result) (py "Ok.")) || is_None (resp_cookies result)
     then raise QBittorrentRPCException
     else set_cookies (resp_cookies result))
    (fun _ => raise QBittorrentRPCException).

(** [auth_query(data, files)] *)
Definition auth_query (data : dict pyval) (files : option (dict pyval))
    : M response :=
  self <- get_self ;;
  (if no_cookies (cookies self) then login else ret tt) ;;
  query data files.

(** [auth_query_json(data, files)] *)
Definition auth_query_json (data : dict pyval) (files : option (dict pyval))
    : M jvalue :=
  self <- get_self ;;
  (if no_cookies (cookies self) then login else ret tt) ;;
  response <- query data files ;;
  lift (resp_json response).

(** [method_add_torrent(torrent, download_to, params)] *)
Definition method_add_torrent (torrent : dict pyval)
    (download_to : option str) : M response :=
  match dict_get (py "torrent") torrent with
  | None => raise KeyError
  | Some content =>
      let file_data := [(py "torrents", content)] in
      let file_data :=
        match download_to with
        | Some d => dict_update file_data [(py "savepath", PStr d)]
        | None => file_data
        end in
      auth_query (build_params (Some (py "add_torrent")) None) (Some file_data)
  end.

(** [method_remove_torrent(hash_str, with_data)] *)
Definition method_remove_torrent (hash_str : str) (with_data : bool)
    : M response :=
  let action := py "rem_torrent" in
  let action := if with_data then py "rem_torrent_with_data" else action in
  let data := PDict [(py "hashes", PStr hash_str)] in
  auth_query (build_params (Some action) (Some [(py "data", data)])) None.

(** [method_get_version()] *)
Definition method_get_version : M str :=
  result <- auth_query (build_params (Some (py "api_version_path")) None) None ;;
  ret (text result).

End RPC.

(** * The rest of the two modules *)

(** ** [extract_release_code] *)

Fixpoint starts_with (p s : str) : bool :=
  match p, s with
  | [], _ => true
  | x :: p', c :: s' => (x =? c)%N && starts_with p' s'
  | _ :: _, [] => false
  end.

(** [s.replace(old, new)] for an [old] that is not empty, read from the
    left; [skip] code points of an occurrence that was found are still to
    be passed over. *)
Fixpoint replace_from (old new : str) (skip : nat) (s : str) : str :=
  match s with
  | [] => []
  | c :: s' =>
      match skip with
      | S k => replace_from old new k s'
      | O =>
          if starts_with old s
          then new ++ replace_from old new (List.length old - 1) s'
          else c :: replace_from old new 0 s'
      end
  end.

(** [s.replace(old, new)]; an empty [old] is found before every code point
    and at the end. *)
Definition replace (old new s : str) : str :=
  match old with
  | [] => new ++ flat_map (fun c => c :: new) s
  | _ :: _ => replace_from old new 0 s
  end.

(** [extract_release_code(url)] *)
Definition extract_release_code (url : str) : str :=
  replace (py ".html") [] (replace (HOST ++ py "/release/") [] url).

(** [AnilibriaTracker.__init__]: the attribute [quality_prefs]. *)
Definition tracker_init (quality_prefs : option (list str)) : list str :=
  match quality_prefs with
  | None => [py "HDTVRip 1080p"; py "HDTVRip 720p"; py "WEBRip 720p"]
  | Some quality_prefs => quality_prefs
  end.

(** ** [method_get_torrents] *)

Section Listing.

Variable urljoin : str -> str -> str.
Variable str_mod : str -> pyval -> result str.
Variable server : trace -> request -> outcome.

(** [BaseRPC.normalize_field_names], which is not in these two modules: it
    updates a decoded value in place or raises; here it returns the value
    as it is after the call. *)
Variable normalize_field_names : jvalue -> result jvalue.

(** A decoded value, as a value of a document of [build_params]. *)
Variable param_of_json : jvalue -> pyval.

Local Open Scope rpc_scope.

(** [hashes is None or torrent_data_hash in hashes] *)
Definition hash_wanted (hashes : option (list str)) (torrent_data_hash : jvalue)
    : bool :=
  match hashes with
  | None => true
  | Some hs =>
      match torrent_data_hash with
      | JStr h => existsb (str_eqb h) hs
      | _ => false
      end
  end.

(** The loop of [method_get_torrents]. *)
Fixpoint get_torrents_loop (hashes : option (list str))
    (result : list jvalue) (torrents_info : list jvalue) : M (list jvalue) :=
  match result with
  | [] => ret torrents_info
  | torrent_data :: rest =>
      torrent_data <- lift (normalize_field_names torrent_data) ;;
      torrent_data_hash <- lift (getitem torrent_data (py "hash")) ;;
      if hash_wanted hashes torrent_data_hash then
        addition_data <-
          auth_query_json urljoin str_mod server
            (build_params (Some (py "get_torrent"))
               (Some [(py "action_params", param_of_json torrent_data_hash)]))
            None ;;
        addition_data <- lift (normalize_field_names addition_data) ;;
        name <- lift (getitem torrent_data (py "name")) ;;
        download_to <- lift (getitem torrent_data (py "download_to")) ;;
        comment <- lift (getitem addition_data (py "comment")) ;;
        get_torrents_loop hashes rest
          (torrents_info ++
           [JObj [(py "hash", torrent_data_hash);
                  (py "name", name);
                  (py "download_to", download_to);
                  (py "comment", comment)]])
      else get_torrents_loop hashes rest torrents_info
  end.

(** [method_get_torrents(hashes)] *)
Definition method_get_torrents (hashes : option (list str))
    : M (list jvalue) :=
  result <- auth_query_json urljoin str_mod server
              (build_params (Some (py "get_torrents"))
                 (Some [(py "reverse", PStr (py "true"))])) None ;;
  result <- lift (py_iter result) ;;
  get_torrents_loop hashes result [].

End Listing.

(** * The words of the specification *)

(** A variant has the series [k]. *)
Definition has_series (k : str) (t : jvalue) : bool :=
  match getitem t (py "series") with
  | Ok (JStr s) => str_eqb s k
  | _ => false
  end.

(** The number that a string of ASCII digits writes. *)
Definition digits_value (s : str) : Z :=
  fold_left (fun acc c => (10 * acc + Z.of_N (c - 48))%Z) s 0%Z.

(** The last value that a list of entries gives to a key. *)
Fixpoint last_binding {V} (k : str) (l : list (str * V)) : option V :=
  match l with
  | [] => None
  | (k', v) :: l' =>
      match last_binding k l' with
      | Some w => Some w
      | None => if str_eqb k k' then Some v else None
      end
  end.

(** A record of a torrent, as [method_get_torrents] builds it. *)
Definition torrent_record (hash name download_to comment : jvalue) : jvalue :=
  JObj [(py "hash", hash); (py "name", name);
        (py "download_to", download_to); (py "comment", comment)].

(** "Interpreting each [series_range] as a pair of integers [(start, end)]":
    the first range is at least the second one, as pairs of numbers. *)
Definition pair_ge (U : unicode_db) (k1 k2 : str) : Prop :=
  exists a1 b1 a2 b2 : Z,
    to_tuple U k1 = Ok [a1; b1] /\ to_tuple U k2 = Ok [a2; b2] /\
    (a2 < a1 \/ (a2 = a1 /\ b2 <= b1))%Z.

(** "Deduplicating while preserving first-seen order". *)
Fixpoint dedup_first (l : list str) : list str :=
  match l with
  | [] => []
  | x :: l' => x :: filter (fun y => negb (str_eqb y x)) (dedup_first l')
  end.

(** "Lowercase, non-alphanumeric characters stripped": the normalized form
    of a label of ASCII characters. *)
Definition stripped_lowercase (label : str) : str :=
  List.map ascii_lower
    (filter (fun c => ascii_letter c || ascii_digit c) label).

(** The Quality Key of a variant. *)
Definition quality_key (U : unicode_db) (t : jvalue) (k : str) : Prop :=
  exists q, getitem t (py "quality") = Ok q /\ sanitize_quality_json U q = Ok k.

(** The calls of [login] in a trace. *)
Definition is_login_call (e : event) : bool :=
  match e with
  | Login_called => true
  | Requested _ => false
  end.

Definition login_calls (tr : trace) : nat :=
  List.length (filter is_login_call tr).

(** "Included as a form field": an entry of the [data] keyword. *)
Definition form_field (k : str) (v : pyval) (req : request) : Prop :=
  exists d, kw_data req = Some (PDict d) /\ dict_get k d = Some v.

(** "Attached as a file": an entry of the [files] keyword. *)
Definition file_attachment (k : str) (v : pyval) (req : request) : Prop :=
  exists f, kw_files req = Some f /\ dict_get k f = Some v.

(** A method logs in once, first, and then makes at most its own request,
    which it has made when it returns: the events that it adds to the
    trace. *)
Definition logs_in_once {A} (m : M A) (login_req : request)
    (self : QBittorrentRPC) (tr : trace) : Prop :=
  exists res self' own,
    m self tr = (res, self', tr ++ Login_called :: Requested login_req :: own)
    /\ login_calls (Login_called :: Requested login_req :: own) = 1
    /\ (own = [] \/ exists req, own = [Requested req])
    /\ (forall a, res = Ok a -> own <> []).

(** A method does not log in and leaves the object as it is. *)
Definition does_not_log_in {A} (m : M A)
    (self : QBittorrentRPC) (tr : trace) : Prop :=
  exists res own,
    m self tr = (res, self, tr ++ own)
    /\ login_calls own = 0
    /\ (own = [] \/ exists req, own = [Requested req])
    /\ (forall a, res = Ok a -> own <> []).

(** A record that the filter of [method_get_torrents] lets through. *)
Definition wanted_record (hashes : option (list str)) (rec : jvalue) : Prop :=
  exists hash name download_to comment,
    rec = torrent_record hash name download_to comment /\
    hash_wanted hashes hash = true.

(** A variant that the selector can read: a dict with a string under
    'series' that, if it passes the filter, is ASCII digits, a hyphen and
    ASCII digits, neither run of digits longer than [int] accepts; a
    'quality' that [sanitize_quality] takes; and a string under 'url'. *)
Definition readable_variant (U : unicode_db) (t : jvalue) : Prop :=
  exists s q k u,
    getitem t (py "series") = Ok (JStr s) /\
    (REGEX_RANGE_match U s = true ->
     exists a b, s = a ++ 45%N :: b /\
                 forallb ascii_digit a = true /\ forallb ascii_digit b = true /\
                 a <> [] /\ b <> [] /\
                 (List.length a <=? int_max_str_digits)%nat = true /\
                 (List.length b <=? int_max_str_digits)%nat = true) /\
    getitem t (py "quality") = Ok q /\
    sanitize_quality_json U q = Ok k /\
    getitem t (py "url") = Ok (JStr u).

(** * Sample data *)

(** A variant of a release, as the API reports it. *)
Definition variant (series quality url : string) : jvalue :=
  JObj [(py "series", JStr (py series));
        (py "quality", JStr (py quality));
        (py "url", JStr (py url))].

(** A response of the API that reports success. *)
Definition release (torrents : list jvalue) : jvalue :=
  JObj [(py "status", JBool true);
        (py "data", JObj [(py "torrents", JArr torrents)])].

(** A release in two batches; two labels of the second batch have the
    same Quality Key. *)
Definition two_batches : list jvalue :=
  [variant "1-20" "WEBRip 1080p" "/upload/a.torrent";
   variant "21-41" "HDTVRip 720p" "/upload/b.torrent";
   variant "21-41" "HDTVRip-720p" "/upload/c.torrent";
   variant "21-41" "WEBRip 720p" "/upload/d.torrent"].

Definition two_batches_groups : dict (list jvalue) :=
  Eval vm_compute in
    match group_by_series ucd_rows two_batches [] with
    | Ok d => d
    | Raise _ => []
    end.

Definition two_batches_qualities : dict str :=
  Eval vm_compute in
    match find_available_qualities ucd_rows (release two_batches) with
    | Ok d => d
    | Raise _ => []
    end.

(** A client: joining of an address and a path that is relative to it, the
    operator [%] on a template that ends in its one conversion, and three
    servers. *)
Definition sample_urljoin (base segment : str) : str := base ++ segment.

Definition sample_str_mod (template : str) (v : pyval) : result str :=
  match v with
  | PStr s => Ok (firstn (List.length template - 2) template ++ s)
  | _ => Raise TypeError
  end.

Definition sample_response (c : option cookiejar) : response :=
  {| status_code := 200; text := py "Ok."; resp_cookies := c;
     resp_json := Ok (JArr []) |}.

Definition server_with_cookie : trace -> request -> outcome :=
  fun _ _ => Responded (sample_response (Some [(py "SID", py "0123abcd")])).

Definition server_without_cookie : trace -> request -> outcome :=
  fun _ _ => Responded (sample_response (Some [])).

Definition server_down : trace -> request -> outcome := fun _ _ => Failed.

Definition fresh : QBittorrentRPC :=
  init None (py "localhost") 8080 (py "admin") (py "admin") true.

(** A server that lists two torrents and gives the properties of each, a
    renaming of 'save_path' to 'download_to' in the place of
    [normalize_field_names], and an object that has a cookie. *)
Definition listed (hash name save_path : string) : jvalue :=
  JObj [(py "hash", JStr (py hash)); (py "name", JStr (py name));
        (py "save_path", JStr (py save_path))].

Definition server_listing : trace -> request -> outcome :=
  fun _ req =>
    Responded
      {| status_code := 200; text := py "";
         resp_cookies := Some [];
         resp_json :=
           if str_eqb (req_url req) (py "http://localhost:8080/query/torrents")
           then Ok (JArr [listed "0a1b" "first" "/data/one";
                          listed "2c3d" "second" "/data/two"])
           else Ok (JObj [(py "comment", JStr (py "from the tracker"))]) |}.

(** The same server when it answers every request, the login request too,
    with the body 'Ok.' and a jar without cookies. *)
Definition server_listing_without_cookie : trace -> request -> outcome :=
  fun _ req =>
    Responded
      {| status_code := 200; text := py "Ok.";
         resp_cookies := Some [];
         resp_json :=
           if str_eqb (req_url req) (py "http://localhost:8080/query/torrents")
           then Ok (JArr [listed "0a1b" "first" "/data/one";
                          listed "2c3d" "second" "/data/two"])
           else Ok (JObj [(py "comment", JStr (py "from the tracker"))]) |}.

(** The same server when it answers the login request with a cookie. *)
Definition server_listing_with_cookie : trace -> request -> outcome :=
  fun _ req =>
    Responded
      {| status_code := 200; text := py "Ok.";
         resp_cookies := Some [(py "SID", py "0123abcd")];
         resp_json :=
           if str_eqb (req_url req) (py "http://localhost:8080/query/torrents")
           then Ok (JArr [listed "0a1b" "first" "/data/one";
                          listed "2c3d" "second" "/data/two"])
           else Ok (JObj [(py "comment", JStr (py "from the tracker"))]) |}.

Definition sample_normalize (v : jvalue) : result jvalue :=
  match v with
  | JObj d =>
      match dict_get (py "save_path") d with
      | Some p => Ok (JObj (dict_set (py "download_to") p d))
      | None => Ok v
      end
  | _ => Ok v
  end.

Definition sample_param (v : jvalue) : pyval :=
  match v with
  | JStr s => PStr s
  | _ => PNone
  end.

Definition logged_in : QBittorrentRPC :=
  with_cookies fresh (Some [(py "SID", py "0123abcd")]).

(** * Properties *)

Lemma str_eqb_eq a b : str_eqb a b = true <-> a = b.
Proof.
  revert b. induction a as [|x a IH]; intros [|y b]; simpl;
    try (split; [discriminate | congruence]); [tauto|].
  rewrite andb_true_iff, N.eqb_eq, IH. split; [intros [-> ->] | intros [= -> ->]]; auto.
Qed.

Lemma str_eqb_neq a b : str_eqb a b = false <-> a <> b.
Proof. rewrite <- str_eqb_eq. destruct (str_eqb a b); split; congruence. Qed.

Lemma str_eqb_refl a : str_eqb a a = true.
Proof. now apply str_eqb_eq. Qed.

Lemma bind_Ok_inv {A B} (m : result A) (f : A -> result B) b :
  bind m f = Ok b -> exists a, m = Ok a /\ f a = Ok b.
Proof. destruct m as [a|e]; simpl; [eauto | discriminate]. Qed.

(** ** The normalizer *)

Section Normalizer.

Variable U : unicode_db.

Lemma sanitize_quality_Some (s : str) :
  sanitize_quality U (Some s) = lower U (REGEX_NON_WORD_sub U s).
Proof. destruct s; reflexivity. Qed.

Lemma ascii_str_filter f s : ascii_str s = true -> ascii_str (filter f s) = true.
Proof.
  unfold ascii_str. rewrite !forallb_forall. intros H c Hc.
  apply filter_In in Hc. now apply H.
Qed.

Lemma ascii_lower_ascii c : is_ascii c = true -> is_ascii (ascii_lower c) = true.
Proof.
  unfold is_ascii, ascii_lower, ascii_upper. intros H.
  destruct ((65 <=? c) && (c <=? 90))%N eqn:E; [|exact H].
  apply andb_true_iff in E. destruct E as [_ E].
  apply N.leb_le in E. apply N.ltb_lt. lia.
Qed.

Lemma ascii_str_map_lower s :
  ascii_str s = true -> ascii_str (List.map ascii_lower s) = true.
Proof.
  unfold ascii_str. rewrite !forallb_forall. intros H c Hc.
  apply in_map_iff in Hc. destruct Hc as [d [<- Hd]].
  apply ascii_lower_ascii. now apply H.
Qed.

Lemma ascii_lower_idem c : ascii_lower (ascii_lower c) = ascii_lower c.
Proof.
  unfold ascii_lower, ascii_upper.
  destruct ((65 <=? c) && (c <=? 90))%N eqn:E; [|now rewrite E].
  apply andb_true_iff in E. destruct E as [E1 E2].
  apply N.leb_le in E1, E2.
  replace ((65 <=? c + 32) && (c + 32 <=? 90))%N with false; [reflexivity|].
  symmetry. apply andb_false_iff. right. apply N.leb_gt. lia.
Qed.

(** Lowercasing an ASCII code point keeps it a word character. *)
Lemma REGEX_NON_WORD_lower c :
  is_ascii c = true ->
  REGEX_NON_WORD U c = false -> REGEX_NON_WORD U (ascii_lower c) = false.
Proof.
  intros Ha. pose proof (ascii_lower_ascii _ Ha) as Hl. revert Hl.
  unfold ascii_lower. destruct (ascii_upper c) eqn:E; [|trivial].
  intros Hl _. unfold REGEX_NON_WORD, is_word. rewrite Hl.
  unfold ascii_upper in E. apply andb_true_iff in E. destruct E as [E1 E2].
  apply N.leb_le in E1, E2.
  assert (H1 : ((c + 32 =? 95) = false)%N) by (apply N.eqb_neq; lia).
  assert (H2 : ((97 <=? c + 32) = true)%N) by (apply N.leb_le; lia).
  assert (H3 : ((c + 32 <=? 122) = true)%N) by (apply N.leb_le; lia).
  unfold ascii_letter, ascii_digit. rewrite H1, H2, H3. simpl.
  now rewrite orb_true_r.
Qed.

Lemma filter_id_when {A} (f : A -> bool) l :
  (forall x, In x l -> f x = true) -> filter f l = l.
Proof.
  induction l as [|a l IH]; simpl; intros H; [reflexivity|].
  rewrite (H a (or_introl eq_refl)). f_equal. apply IH. intros; apply H; now right.
Qed.

Lemma sanitize_quality_idem_ascii (s : str) :
  ascii_str s = true ->
  sanitize_quality U (Some (sanitize_quality U (Some s))) = sanitize_quality U (Some s).
Proof.
  intros Hs. rewrite !sanitize_quality_Some.
  set (t := REGEX_NON_WORD_sub U s).
  assert (Ht : ascii_str t = true) by (apply ascii_str_filter; exact Hs).
  unfold lower at 2. rewrite Ht.
  assert (Hk : REGEX_NON_WORD_sub U (List.map ascii_lower t) = List.map ascii_lower t).
  { apply filter_id_when. intros c Hc. apply in_map_iff in Hc.
    destruct Hc as [d [<- Hd]]. apply negb_true_iff.
    unfold ascii_str in Ht. rewrite forallb_forall in Ht.
    apply REGEX_NON_WORD_lower; [now apply Ht|].
    subst t. apply filter_In in Hd. destruct Hd as [_ Hd].
    now apply negb_true_iff in Hd. }
  rewrite Hk. unfold lower. rewrite (ascii_str_map_lower _ Ht), Ht.
  rewrite map_map. apply map_ext. intros; apply ascii_lower_idem.
Qed.

(** A separator (any code point that is not a word character, or the
    underscore) does not change the key, wherever it stands. *)
Lemma sanitize_quality_separator (a b : str) (sep : N) :
  REGEX_NON_WORD U sep = true ->
  sanitize_quality U (Some (a ++ sep :: b)) = sanitize_quality U (Some (a ++ b)).
Proof.
  intros H. rewrite !sanitize_quality_Some. f_equal.
  unfold REGEX_NON_WORD_sub. rewrite !filter_app. simpl. now rewrite H.
Qed.

(** The case of ASCII letters does not change the key. *)
Lemma sanitize_quality_case_ascii (s : str) :
  ascii_str s = true ->
  sanitize_quality U (Some (List.map ascii_lower s)) = sanitize_quality U (Some s).
Proof.
  intros Hs. rewrite !sanitize_quality_Some.
  assert (E : REGEX_NON_WORD_sub U (List.map ascii_lower s)
              = List.map ascii_lower (REGEX_NON_WORD_sub U s)).
  { unfold ascii_str in Hs. rewrite forallb_forall in Hs.
    unfold REGEX_NON_WORD_sub. induction s as [|c s IH]; [reflexivity|].
    simpl. assert (Hc : is_ascii c = true) by (apply Hs; now left).
    assert (Hw : REGEX_NON_WORD U (ascii_lower c) = REGEX_NON_WORD U c).
    { destruct (REGEX_NON_WORD U c) eqn:E.
      - unfold REGEX_NON_WORD, is_word in *.
        rewrite (ascii_lower_ascii _ Hc). rewrite Hc in E.
        unfold ascii_lower. destruct (ascii_upper c) eqn:Eu; [|exact E].
        exfalso. unfold ascii_letter in E. rewrite Eu in E. simpl in E.
        rewrite orb_true_r in E. simpl in E. apply N.eqb_eq in E. subst c.
        discriminate Eu.
      - now apply REGEX_NON_WORD_lower. }
    rewrite Hw. destruct (REGEX_NON_WORD U c); simpl;
      [|f_equal]; apply IH; intros; apply Hs; now right. }
  rewrite E. unfold lower.
  assert (Ht : ascii_str (REGEX_NON_WORD_sub U s) = true)
    by now apply ascii_str_filter.
  rewrite Ht, (ascii_str_map_lower _ Ht), map_map.
  apply map_ext. intros; apply ascii_lower_idem.
Qed.

(** C5, as amended: on every input made of ASCII code points the normalizer
    is idempotent and does not depend on the case of the letters; on every
    input it does not depend on separators; absent and empty input give the
    empty string; and 'WEBRip 1080p', 'WEBRip-1080p' and 'WEBRip_1080p' all
    give 'webrip1080p'. *)
Theorem sanitize_quality_normal_form (x : str) (Hx : ascii_str x = true) :
  sanitize_quality U (Some (sanitize_quality U (Some x)))
    = sanitize_quality U (Some x)
  /\ sanitize_quality U (Some (List.map ascii_lower x))
    = sanitize_quality U (Some x)
  /\ (forall (a b : str) (sep : N), REGEX_NON_WORD U sep = true ->
        sanitize_quality U (Some (a ++ sep :: b))
          = sanitize_quality U (Some (a ++ b)))
  /\ sanitize_quality U None = []
  /\ sanitize_quality U (Some []) = []
  /\ sanitize_quality U (Some (sanitize_quality U None))
       = sanitize_quality U None
  /\ sanitize_quality U (Some (py "WEBRip 1080p")) = py "webrip1080p"
  /\ sanitize_quality U (Some (py "WEBRip-1080p")) = py "webrip1080p"
  /\ sanitize_quality U (Some (py "WEBRip_1080p")) = py "webrip1080p".
Proof.
  split; [now apply sanitize_quality_idem_ascii|].
  split; [now apply sanitize_quality_case_ascii|].
  split; [intros; now apply sanitize_quality_separator|].
  repeat split; reflexivity.
Qed.

End Normalizer.

Lemma sanitize_quality_normal_form_witness :
  ascii_str (py "HDTVRip 720p") = true
  /\ sanitize_quality ucd_rows
       (Some (sanitize_quality ucd_rows (Some (py "HDTVRip 720p"))))
     = sanitize_quality ucd_rows (Some (py "HDTVRip 720p")).
Proof.
  split; [reflexivity|].
  exact (proj1 (sanitize_quality_normal_form ucd_rows (py "HDTVRip 720p") eq_refl)).
Defined.

(** C5 fails as stated: U+0130 is a letter, its lowercase is 'i' followed by
    U+0307, and U+0307 is not a word character, so a second pass deletes
    it. *)
Lemma sanitize_quality_not_idempotent :
  sanitize_quality ucd_rows (Some (sanitize_quality ucd_rows (Some [304%N])))
    <> sanitize_quality ucd_rows (Some [304%N]).
Proof. vm_compute. discriminate. Qed.

(** The same on every table that has these two rows. *)
Lemma no_idempotence_at_U0130 (U : unicode_db) :
  uni_isalnum U 304 = true -> uni_isalnum U 775 = false ->
  uni_lower U [304%N] = [105%N; 775%N] ->
  sanitize_quality U (Some (sanitize_quality U (Some [304%N]))) = [105%N]
  /\ sanitize_quality U (Some [304%N]) = [105%N; 775%N].
Proof.
  intros H1 H2 H3.
  assert (E : sanitize_quality U (Some [304%N]) = [105%N; 775%N]).
  { unfold sanitize_quality, REGEX_NON_WORD_sub, REGEX_NON_WORD, is_word, lower.
    simpl. rewrite H1. simpl. exact H3. }
  split; [|exact E]. rewrite E.
  unfold sanitize_quality, REGEX_NON_WORD_sub, REGEX_NON_WORD, is_word, lower.
  simpl. rewrite H2. reflexivity.
Qed.

(** ** Dictionaries *)

Section DictFacts.

Variable V : Type.
Implicit Types (d : dict V) (k : str) (v : V).

Lemma dict_get_set_same k v d : dict_get k (dict_set k v d) = Some v.
Proof.
  induction d as [|[k' v'] d IH]; simpl.
  - now rewrite str_eqb_refl.
  - destruct (str_eqb k k') eqn:E; simpl; rewrite E; auto.
Qed.

Lemma dict_get_set_other k k' v d :
  k <> k' -> dict_get k' (dict_set k v d) = dict_get k' d.
Proof.
  intros Hne. induction d as [|[k0 v0] d IH]; simpl.
  - destruct (str_eqb k' k) eqn:E; [|reflexivity].
    apply str_eqb_eq in E. congruence.
  - destruct (str_eqb k k0) eqn:E; simpl.
    + apply str_eqb_eq in E. subst k0.
      destruct (str_eqb k' k) eqn:E'; [|reflexivity].
      apply str_eqb_eq in E'. congruence.
    + now rewrite IH.
Qed.

Lemma dict_get_In k v d : dict_get k d = Some v -> In (k, v) d.
Proof.
  induction d as [|[k' v'] d IH]; simpl; [discriminate|].
  destruct (str_eqb k k') eqn:E.
  - apply str_eqb_eq in E. intros [= ->]. left. now subst.
  - intros H. right. now apply IH.
Qed.

Lemma dict_get_keys k d : In k (keys d) -> exists v, dict_get k d = Some v.
Proof.
  induction d as [|[k' v'] d IH]; simpl; [tauto|].
  intros [->|H].
  - rewrite str_eqb_refl. eauto.
  - destruct (str_eqb k k'); eauto.
Qed.

Lemma In_dict_set k v d a b :
  In (a, b) (dict_set k v d) -> (a = k /\ b = v) \/ In (a, b) d.
Proof.
  induction d as [|[k' v'] d IH]; simpl.
  - intros [[= <- <-]|[]]. auto.
  - destruct (str_eqb k k') eqn:E; simpl.
    + apply str_eqb_eq in E. subst k'. intros [[= <- <-]|H]; auto.
    + intros [H|H]; auto. destruct (IH H); auto.
Qed.

Lemma dict_set_not_nil k v d : dict_set k v d <> [].
Proof. destruct d as [|[k' v'] d]; simpl; [|destruct (str_eqb k k')]; discriminate. Qed.

Lemma dict_has_true k d : dict_has k d = true <-> exists v, dict_get k d = Some v.
Proof.
  unfold dict_has. destruct (dict_get k d); split; eauto; try discriminate.
  intros [v H]. discriminate.
Qed.

Lemma dict_has_false k d : dict_has k d = false <-> dict_get k d = None.
Proof. unfold dict_has. destruct (dict_get k d); split; congruence. Qed.

End DictFacts.

(** ** The release selector *)

Section Selector.

Variable U : unicode_db.

(** *** Responses without candidates *)

(** A response whose [status] is false or missing gives the empty string. *)
Lemma get_download_link_status_false (prefs : list str) (d : list (str * jvalue)) :
  truthy (match dict_get (py "status") d with
          | Some v => v
          | None => JBool false
          end) = false ->
  get_download_link U prefs (JObj d) = Ok [].
Proof.
  intros H. unfold get_download_link, find_available_qualities. simpl.
  now rewrite H.
Qed.

(** A variant whose [series] does not start as a range is left out of the
    groups, and [to_tuple] is not called on it. *)
Lemma group_by_series_skip (t : jvalue) (s : str) rest acc :
  getitem t (py "series") = Ok (JStr s) ->
  REGEX_RANGE_match U s = false ->
  group_by_series U (t :: rest) acc = group_by_series U rest acc.
Proof. intros H1 H2. simpl. rewrite H1. simpl. now rewrite H2. Qed.

Lemma group_by_series_none (items : list jvalue) acc :
  (forall t, In t items -> exists s,
      getitem t (py "series") = Ok (JStr s) /\ REGEX_RANGE_match U s = false) ->
  group_by_series U items acc = Ok acc.
Proof.
  induction items as [|t items IH]; intros H; [reflexivity|].
  destruct (H t (or_introl eq_refl)) as [s [H1 H2]].
  rewrite (group_by_series_skip _ _ _ H1 H2). apply IH.
  intros; apply H; now right.
Qed.

(** When the API reports success and no variant passes the filter, there is
    no first series to take and the [IndexError] of [sorted_series[0]] goes
    through [get_download_link]. *)
Lemma no_candidates_IndexError (prefs : list str) (items : list jvalue) :
  (forall t, In t items -> exists s,
      getitem t (py "series") = Ok (JStr s) /\ REGEX_RANGE_match U s = false) ->
  get_download_link U prefs (release items) = Raise IndexError.
Proof.
  intros H. unfold get_download_link, find_available_qualities, release.
  simpl. unfold selected_series. now rewrite (group_by_series_none _ [] H).
Qed.

(** C1 at the response [{'status': True, 'data': {'torrents': []}}], and at
    one whose only variant is a trailer: the code raises [IndexError], where
    the claim has the empty string.  A response whose [status] is false or
    missing gives the empty string, as the claim has it. *)
Theorem get_download_link_empty_torrents (prefs : list str) :
  get_download_link U prefs (release []) = Raise IndexError
  /\ get_download_link U prefs
       (release [variant "Trailer" "WEBRip 1080p" "/upload/t.torrent"])
     = Raise IndexError
  /\ get_download_link U prefs
       (JObj [(py "status", JBool false); (py "data", JNull)]) = Ok []
  /\ get_download_link U prefs (JObj []) = Ok [].
Proof.
  split; [reflexivity|]. split.
  - apply no_candidates_IndexError. intros t [<-|[]].
    exists (py "Trailer"). split; reflexivity.
  - split; now apply get_download_link_status_false.
Qed.

(** *** Ranges that are not two integers *)

(** C4 at a variant whose series is ['1-2x']: the range passes the filter,
    which looks at the start of the string only, and [int('2x')] raises
    [ValueError] inside [sorted]. *)
Theorem find_available_qualities_malformed_range :
  REGEX_RANGE_match U (py "1-2x") = true
  /\ to_tuple U (py "1-2x") = Raise ValueError
  /\ find_available_qualities U
       (release [variant "1-20" "WEBRip 1080p" "/upload/a.torrent";
                 variant "1-2x" "WEBRip 1080p" "/upload/b.torrent"])
     = Raise ValueError.
Proof. repeat split; reflexivity. Qed.

(** *** Ranking of the series *)

Lemma tuple_ltb_irrefl a : tuple_ltb a a = false.
Proof. induction a as [|x a IH]; simpl; [reflexivity|]. now rewrite Z.ltb_irrefl. Qed.

Lemma tuple_ltb_trans a b c :
  tuple_ltb a b = true -> tuple_ltb b c = true -> tuple_ltb a c = true.
Proof.
  revert b c. induction a as [|x a IH]; intros [|y b] [|z c]; simpl;
    try discriminate; try reflexivity.
  destruct (Z.ltb_spec x y), (Z.ltb_spec y x), (Z.ltb_spec y z),
    (Z.ltb_spec z y), (Z.ltb_spec x z), (Z.ltb_spec z x);
    try discriminate; try reflexivity; try lia.
  apply IH.
Qed.

Lemma tuple_ltb_connex a b :
  tuple_ltb a b = false -> tuple_ltb b a = false -> a = b.
Proof.
  revert b. induction a as [|x a IH]; intros [|y b]; simpl;
    try discriminate; try reflexivity.
  destruct (Z.ltb_spec x y), (Z.ltb_spec y x); try discriminate; try lia.
  intros H1 H2. f_equal; [lia | now apply IH].
Qed.

Lemma tuple_leb_total a b : tuple_leb a b = false -> tuple_leb b a = true.
Proof.
  unfold tuple_leb. rewrite negb_false_iff, negb_true_iff. intros H.
  destruct (tuple_ltb a b) eqn:E; [|reflexivity].
  pose proof (tuple_ltb_irrefl a) as I.
  now rewrite (tuple_ltb_trans _ _ _ E H) in I.
Qed.

Lemma tuple_leb_trans a b c :
  tuple_leb a b = true -> tuple_leb b c = true -> tuple_leb a c = true.
Proof.
  unfold tuple_leb. rewrite !negb_true_iff. intros Hba Hcb.
  destruct (tuple_ltb c a) eqn:Hca; [|reflexivity].
  destruct (tuple_ltb a b) eqn:Hab.
  - now rewrite (tuple_ltb_trans _ _ _ Hca Hab) in Hcb.
  - rewrite (tuple_ltb_connex _ _ Hab Hba) in Hca. congruence.
Qed.

(** On pairs the order of tuples is the order of the specification. *)
Lemma tuple_leb_pairs (a1 b1 a2 b2 : Z) :
  tuple_leb [a2; b2] [a1; b1] = true <->
  (a2 < a1 \/ (a2 = a1 /\ b2 <= b1))%Z.
Proof.
  unfold tuple_leb. simpl.
  destruct (Z.ltb_spec a1 a2), (Z.ltb_spec a2 a1), (Z.ltb_spec b1 b2),
    (Z.ltb_spec b2 b1); simpl; split; intros; try discriminate;
    try reflexivity; lia.
Qed.

Section Sorting.

Variable A : Type.
Implicit Types (x y : list Z * A) (l : list (list Z * A)).

Lemma insert_desc_perm x l : Permutation (x :: l) (insert_desc x l).
Proof.
  induction l as [|y l IH]; simpl; [reflexivity|].
  destruct (tuple_leb (fst y) (fst x)); [reflexivity|].
  rewrite perm_swap. now constructor.
Qed.

Lemma sort_desc_perm l : Permutation l (sort_desc l).
Proof.
  induction l as [|x l IH]; simpl; [constructor|].
  rewrite <- insert_desc_perm. now constructor.
Qed.

Lemma insert_desc_sorted x l :
  StronglySorted desc l -> StronglySorted desc (insert_desc x l).
Proof.
  induction 1 as [|y l Hs IH Hy]; simpl.
  - repeat constructor.
  - destruct (tuple_leb (fst y) (fst x)) eqn:E.
    + constructor; [now constructor|]. constructor; [exact E|].
      rewrite Forall_forall in *. intros z Hz. unfold desc in *.
      eapply tuple_leb_trans; [apply Hy, Hz | exact E].
    + constructor; [exact IH|].
      rewrite Forall_forall in *. intros z Hz.
      apply (Permutation_in _ (Permutation_sym (insert_desc_perm x l))) in Hz.
      destruct Hz as [<-|Hz]; [|now apply Hy].
      unfold desc. now apply tuple_leb_total.
Qed.

Lemma sort_desc_sorted l : StronglySorted desc (sort_desc l).
Proof.
  induction l as [|x l IH]; simpl; [constructor|].
  now apply insert_desc_sorted.
Qed.

End Sorting.

Lemma mapM_Ok {A B} (f : A -> result B) (l : list A) :
  (forall a, In a l -> exists b, f a = Ok b) ->
  exists bs, mapM f l = Ok bs /\ Forall2 (fun a b => f a = Ok b) l bs.
Proof.
  induction l as [|a l IH]; intros H; simpl.
  - exists []. split; [reflexivity | constructor].
  - destruct (H a (or_introl eq_refl)) as [b Hb].
    destruct IH as [bs [E F]]; [intros; apply H; now right|].
    exists (b :: bs). rewrite Hb, E. split; [reflexivity | now constructor].
Qed.

Lemma Forall2_map_snd {A B} (f : A -> result B) (l : list A) (bs : list (B * A)) :
  Forall2 (fun a p => (b <- f a ;; Ok (b, a)) = Ok p) l bs ->
  List.map snd bs = l /\ Forall (fun p => f (snd p) = Ok (fst p)) bs.
Proof.
  induction 1 as [|a p l bs H _ [IH1 IH2]]; simpl; [split; constructor|].
  destruct (f a) as [b|e] eqn:E; simpl in H; [|discriminate].
  injection H as <-. simpl. split; [now f_equal|]. constructor; assumption.
Qed.

(** [sorted] returns when every key parses, and then its result is a
    rearrangement of the keys in which every key is at least the ones after
    it, as pairs of numbers. *)
Lemma sorted_by_to_tuple_reverse_spec (ks : list str) :
  (forall k, In k ks -> exists a b : Z, to_tuple U k = Ok [a; b]) ->
  exists ss,
    sorted_by_to_tuple_reverse U ks = Ok ss /\
    Permutation ks ss /\ StronglySorted (pair_ge U) ss.
Proof.
  intros Hp. unfold sorted_by_to_tuple_reverse.
  destruct (@mapM_Ok _ _ (fun k => t <- to_tuple U k ;; Ok (t, k)) ks)
    as [dec [E F]].
  { intros k Hk. destruct (Hp k Hk) as [a [b H]]. rewrite H. simpl. eauto. }
  rewrite E. simpl. eexists. split; [reflexivity|].
  apply Forall2_map_snd in F. destruct F as [F1 F2].
  assert (Pm : Permutation ks (List.map snd (sort_desc dec))).
  { rewrite <- F1 at 1. apply Permutation_map, sort_desc_perm. }
  split; [exact Pm|].
  assert (F3 : Forall (fun p => to_tuple U (snd p) = Ok (fst p)) (sort_desc dec)).
  { rewrite Forall_forall in *. intros p Hin. apply F2.
    now apply (Permutation_in _ (Permutation_sym (sort_desc_perm dec))). }
  assert (F4 : forall p, In p (sort_desc dec) -> In (snd p) ks).
  { intros p Hin. apply (Permutation_in _ (Permutation_sym Pm)).
    now apply in_map. }
  pose proof (sort_desc_sorted dec) as Hs.
  clear Pm. revert F3 F4. generalize (sort_desc dec) Hs. clear - Hp.
  induction 1 as [|p l Hs IH Hall]; intros F3 F4; simpl; constructor.
  - apply IH; [now inversion F3 | intros; apply F4; now right].
  - rewrite Forall_forall in *. intros k Hk.
    apply in_map_iff in Hk. destruct Hk as [q [<- Hq]].
    pose proof (Hall q Hq) as Hd. unfold desc in Hd.
    pose proof (F3 p (or_introl eq_refl)) as Tp.
    pose proof (F3 q (or_intror Hq)) as Tq.
    destruct (Hp (snd p) (F4 p (or_introl eq_refl))) as [a1 [b1 H1]].
    destruct (Hp (snd q) (F4 q (or_intror Hq))) as [a2 [b2 H2]].
    exists a1, b1, a2, b2. repeat split; try assumption.
    apply tuple_leb_pairs.
    rewrite H1 in Tp. rewrite H2 in Tq.
    injection Tp as Tp. injection Tq as Tq. now rewrite Tp, Tq.
Qed.

(** Series that are equal as pairs stay in the order of the groups. *)
Lemma sorted_is_stable :
  sorted_by_to_tuple_reverse U
    [py "1-20"; py "01-20"; py "21-41"; py "021-41"]
  = Ok [py "21-41"; py "021-41"; py "1-20"; py "01-20"].
Proof. reflexivity. Qed.


(** *** The preferences *)

Lemma filter_filter_andb {A} (f g : A -> bool) (l : list A) :
  filter f (filter g l) = filter (fun y => g y && f y) l.
Proof.
  induction l as [|a l IH]; simpl; [reflexivity|].
  destruct (g a); simpl; [destruct (f a)|]; now rewrite IH.
Qed.

Lemma filter_nil_inv {A} (f : A -> bool) (l : list A) :
  filter f l = [] -> forall y, In y l -> f y = false.
Proof.
  induction l as [|a l IH]; simpl; [tauto|].
  destruct (f a) eqn:E; [discriminate|].
  intros H y [<-|Hy]; auto.
Qed.

Lemma filter_cons_inv {A} (f : A -> bool) (l : list A) x r :
  filter f l = x :: r ->
  exists l1 l2, l = l1 ++ x :: l2 /\ (forall y, In y l1 -> f y = false) /\
                f x = true.
Proof.
  induction l as [|a l IH]; simpl; [discriminate|].
  destruct (f a) eqn:E.
  - intros [= -> _]. exists [], l. repeat split; [|assumption]. intros y [].
  - intros H. destruct (IH H) as [l1 [l2 [-> [H1 H2]]]].
    exists (a :: l1), l2. repeat split; [|assumption].
    intros y [<-|Hy]; auto.
Qed.

Lemma normalize_prefs_from (san : str -> str) (l : list str) (acc : list str) :
  fold_left
    (fun acc pref =>
       let pref := san pref in
       if existsb (str_eqb pref) acc then acc else acc ++ [pref]) l acc
  = acc ++ filter (fun y => negb (existsb (str_eqb y) acc))
             (dedup_first (List.map san l)).
Proof.
  revert acc. induction l as [|x l IH]; intros acc; simpl.
  - now rewrite app_nil_r.
  - destruct (existsb (str_eqb (san x)) acc) eqn:E; simpl; rewrite IH.
    + f_equal. rewrite filter_filter_andb. apply filter_ext. intros y.
      destruct (str_eqb y (san x)) eqn:Ey; [|reflexivity].
      apply str_eqb_eq in Ey. subst y. now rewrite E.
    + rewrite <- app_assoc. simpl. do 2 f_equal.
      rewrite filter_filter_andb. apply filter_ext. intros y.
      rewrite existsb_app. simpl. rewrite orb_false_r, negb_orb.
      apply andb_comm.
Qed.

(** The loop over the preferences normalizes them in order and keeps the
    first occurrence of each key. *)
Lemma normalize_prefs_dedup (prefs : list str) :
  normalize_prefs U prefs
  = dedup_first (List.map (fun p => sanitize_quality U (Some p)) prefs).
Proof.
  unfold normalize_prefs.
  rewrite (normalize_prefs_from (fun p => sanitize_quality U (Some p))).
  apply filter_id_when. reflexivity.
Qed.

(** *** The links of the mapping *)

Lemma host_plus_Ok v link :
  host_plus v = Ok link -> exists u, v = JStr u /\ link = HOST ++ u.
Proof. destruct v; simpl; try discriminate. intros [= <-]. eauto. Qed.

Lemma fill_qualities_cons t rest acc :
  fill_qualities U (t :: rest) acc =
  (q <- getitem t (py "quality") ;;
   quality <- sanitize_quality_json U q ;;
   u <- getitem t (py "url") ;;
   link <- host_plus u ;;
   fill_qualities U rest (dict_set quality link acc)).
Proof. reflexivity. Qed.

Lemma fill_qualities_step t rest acc m :
  fill_qualities U (t :: rest) acc = Ok m ->
  exists k u, quality_key U t k /\ getitem t (py "url") = Ok (JStr u) /\
              fill_qualities U rest (dict_set k (HOST ++ u) acc) = Ok m.
Proof.
  rewrite fill_qualities_cons. intros H.
  apply bind_Ok_inv in H. destruct H as [q [Hq H]].
  apply bind_Ok_inv in H. destruct H as [k [Hk H]].
  apply bind_Ok_inv in H. destruct H as [v [Hv H]].
  apply bind_Ok_inv in H. destruct H as [link [Hl H]].
  apply host_plus_Ok in Hl. destruct Hl as [u [-> ->]].
  exists k, u. repeat split; [exists q; auto | assumption | assumption].
Qed.

Lemma fill_qualities_app g1 g2 acc m :
  fill_qualities U (g1 ++ g2) acc = Ok m ->
  exists m1, fill_qualities U g1 acc = Ok m1 /\ fill_qualities U g2 m1 = Ok m.
Proof.
  revert acc. induction g1 as [|t g1 IH]; intros acc H.
  - exists acc. split; [reflexivity | exact H].
  - change ((t :: g1) ++ g2) with (t :: (g1 ++ g2)) in H.
    rewrite fill_qualities_cons in *.
    destruct (getitem t (py "quality")) as [q|]; [simpl in *|discriminate].
    destruct (sanitize_quality_json U q) as [k|]; [simpl in *|discriminate].
    destruct (getitem t (py "url")) as [v|]; [simpl in *|discriminate].
    destruct (host_plus v) as [link|]; [simpl in *|discriminate].
    now apply IH.
Qed.

(** A variant that comes after does not touch the keys that are not its
    own. *)
Lemma fill_qualities_keeps g acc m k :
  fill_qualities U g acc = Ok m ->
  (forall t, In t g -> ~ quality_key U t k) ->
  dict_get k m = dict_get k acc.
Proof.
  revert acc. induction g as [|t g IH]; intros acc H Hk.
  - now injection H as <-.
  - apply fill_qualities_step in H. destruct H as [k' [u [Hq [Hu H]]]].
    rewrite (IH _ H); [|intros; apply Hk; now right].
    apply dict_get_set_other. intros ->. now apply (Hk t (or_introl eq_refl)).
Qed.

(** Every link of the mapping is [HOST] followed by the [url] of a variant
    of the group. *)
Lemma fill_qualities_links g acc m k v :
  fill_qualities U g acc = Ok m -> In (k, v) m ->
  In (k, v) acc \/
  exists t u, In t g /\ getitem t (py "url") = Ok (JStr u) /\ v = HOST ++ u.
Proof.
  revert acc. induction g as [|t g IH]; intros acc H Hin.
  - injection H as <-. now left.
  - apply fill_qualities_step in H. destruct H as [k' [u [Hq [Hu H]]]].
    destruct (IH _ H Hin) as [Hacc|[t' [u' [Ht' H']]]].
    + apply In_dict_set in Hacc. destruct Hacc as [[-> ->]|Hacc]; [|now left].
      right. exists t, u. repeat split; [now left | assumption].
    + right. exists t', u'. split; [now right | assumption].
Qed.

(** *** The groups *)

Lemma defaultdict_get_set_same {A} k (v : list A) d :
  defaultdict_get k (dict_set k v d) = v.
Proof. unfold defaultdict_get. now rewrite dict_get_set_same. Qed.

Lemma defaultdict_get_set_other {A} k k' (v : list A) d :
  k <> k' -> defaultdict_get k' (dict_set k v d) = defaultdict_get k' d.
Proof. intros H. unfold defaultdict_get. now rewrite dict_get_set_other. Qed.

(** A group holds variants of the response only, each under its own
    [series]. *)
Lemma group_by_series_members items acc s2t k t :
  group_by_series U items acc = Ok s2t ->
  In t (defaultdict_get k s2t) ->
  In t (defaultdict_get k acc) \/
  (In t items /\ getitem t (py "series") = Ok (JStr k)).
Proof.
  revert acc. induction items as [|x items IH]; intros acc H Hin.
  - injection H as <-. now left.
  - simpl in H. destruct (getitem x (py "series")) as [sv|] eqn:Es;
      [simpl in H|discriminate].
    destruct sv as [| | | |s| |]; try discriminate.
    destruct (REGEX_RANGE_match U s).
    + destruct (IH _ H Hin) as [Hacc|[Hi Hs]].
      * destruct (list_eq_dec N.eq_dec s k) as [->|Hne].
        -- rewrite defaultdict_get_set_same in Hacc.
           apply in_app_or in Hacc. destruct Hacc as [Hacc|[<-|[]]].
           ++ now left.
           ++ right. split; [now left | assumption].
        -- rewrite defaultdict_get_set_other in Hacc by assumption. now left.
      * right. split; [now right | assumption].
    + destruct (IH _ H Hin) as [Hacc|[Hi Hs]]; [now left|].
      right. split; [now right | assumption].
Qed.

(** *** What [find_available_qualities] returns *)

Lemma selected_series_inv items s0 s2t :
  selected_series U items = Ok (s0, s2t) ->
  group_by_series U items [] = Ok s2t /\
  exists rest, sorted_by_to_tuple_reverse U (keys s2t) = Ok (s0 :: rest).
Proof.
  unfold selected_series. intros H.
  apply bind_Ok_inv in H. destruct H as [d [Hd H]].
  apply bind_Ok_inv in H. destruct H as [ss [Hss H]].
  destruct ss as [|s rest]; simpl in H; [discriminate|].
  injection H as -> ->. split; [assumption | eauto].
Qed.

(** A mapping that is not empty was filled from the group of the series
    that [sorted] put first. *)
Lemma find_available_qualities_inv (json : jvalue) (m : dict str) :
  find_available_qualities U json = Ok m -> m <> [] ->
  exists data torrents items s0 s2t,
    getitem json (py "data") = Ok data /\
    getitem data (py "torrents") = Ok torrents /\
    py_iter torrents = Ok items /\
    selected_series U items = Ok (s0, s2t) /\
    fill_qualities U (defaultdict_get s0 s2t) [] = Ok m.
Proof.
  unfold find_available_qualities. intros H Hne.
  apply bind_Ok_inv in H. destruct H as [st [_ H]].
  destruct (negb (truthy st)); [injection H as <-; congruence|].
  apply bind_Ok_inv in H. destruct H as [data [Hd H]].
  apply bind_Ok_inv in H. destruct H as [torrents [Ht H]].
  apply bind_Ok_inv in H. destruct H as [items [Hi H]].
  apply bind_Ok_inv in H. destruct H as [[s0 s2t] [Hs H]].
  exists data, torrents, items, s0, s2t. auto.
Qed.

(** Every link of the mapping is [HOST] followed by the [url] of a variant
    of the response. *)
Lemma find_available_qualities_links (json : jvalue) (m : dict str) k v :
  find_available_qualities U json = Ok m -> In (k, v) m ->
  exists data torrents items t u,
    getitem json (py "data") = Ok data /\
    getitem data (py "torrents") = Ok torrents /\
    py_iter torrents = Ok items /\
    In t items /\ getitem t (py "url") = Ok (JStr u) /\ v = HOST ++ u.
Proof.
  intros H Hin.
  destruct (find_available_qualities_inv _ H) as
    [data [torrents [items [s0 [s2t [Hd [Ht [Hi [Hs Hf]]]]]]]]].
  { intros ->. destruct Hin. }
  destruct (fill_qualities_links _ _ _ _ Hf Hin) as [[]|[t [u [Hg [Hu ->]]]]].
  apply selected_series_inv in Hs. destruct Hs as [Hg0 _].
  destruct (group_by_series_members _ _ _ _ Hg0 Hg) as [[]|[Ht' _]].
  exists data, torrents, items, t, u. auto 10.
Qed.

Lemma HOST_app_not_nil u : HOST ++ u <> [].
Proof. discriminate. Qed.

(** *** The choice of the link *)

(** What [pick_link] returns on a mapping that is not empty: the link of
    the first key of the normalized preferences that the mapping has, or
    the link of the first entry of the mapping when it has none of them. *)
Lemma pick_link_spec (prefs : list str) (m : dict str) :
  m <> [] ->
  exists link,
    pick_link U prefs m = Ok link /\ In link (List.map snd m) /\
    ((exists l1 q l2,
         normalize_prefs U prefs = l1 ++ q :: l2 /\
         (forall p, In p l1 -> dict_get p m = None) /\
         dict_get q m = Some link)
     \/ ((forall p, In p (normalize_prefs U prefs) -> dict_get p m = None) /\
         exists k rest, m = (k, link) :: rest)).
Proof.
  intros Hne. destruct m as [|[k0 v0] rest]; [congruence|].
  unfold pick_link.
  destruct (filter (fun quality => dict_has quality ((k0, v0) :: rest))
                   (normalize_prefs U prefs)) as [|q r] eqn:E.
  - exists v0. split; [reflexivity|]. split; [now left|]. right. split.
    + intros p Hp. apply dict_has_false. exact (filter_nil_inv _ _ E p Hp).
    + eauto.
  - apply filter_cons_inv in E. destruct E as [l1 [l2 [E [H1 H2]]]].
    apply dict_has_true in H2. destruct H2 as [link Hl].
    exists link. rewrite Hl. split; [reflexivity|]. split.
    + apply dict_get_In in Hl. change link with (snd (q, link)).
      now apply in_map.
    + left. exists l1, q, l2. repeat split; try assumption.
      intros p Hp. apply dict_has_false. now apply H1.
Qed.

(** The key of a label of ASCII characters: its letters and digits, in
    lowercase. *)
Lemma sanitize_quality_ascii (p : str) :
  ascii_str p = true -> sanitize_quality U (Some p) = stripped_lowercase p.
Proof.
  intros Hp. rewrite sanitize_quality_Some. unfold lower.
  assert (Ht : ascii_str (REGEX_NON_WORD_sub U p) = true)
    by (apply ascii_str_filter; exact Hp).
  rewrite Ht. unfold stripped_lowercase. f_equal.
  unfold REGEX_NON_WORD_sub. apply filter_ext_in. intros c Hc.
  unfold ascii_str in Hp. rewrite forallb_forall in Hp.
  unfold REGEX_NON_WORD, is_word. rewrite (Hp c Hc).
  destruct (c =? 95)%N eqn:E.
  - apply N.eqb_eq in E. subst c. reflexivity.
  - simpl. rewrite orb_false_r. apply negb_involutive.
Qed.

Lemma normalize_prefs_ascii (prefs : list str) :
  forallb ascii_str prefs = true ->
  normalize_prefs U prefs = dedup_first (List.map stripped_lowercase prefs).
Proof.
  intros H. rewrite normalize_prefs_dedup. f_equal.
  apply map_ext_in. intros p Hp. apply sanitize_quality_ascii.
  rewrite forallb_forall in H. now apply H.
Qed.

(** C3: on every mapping that is not empty and every list of preferences,
    the preferences are normalized in order with the first occurrence of
    each key kept, and the key of a preference of ASCII characters is its
    letters and digits in lowercase; the link returned is that of the first
    of these keys that the mapping has, or, when it has none, that of the
    first entry of the mapping; the link is one of the mapping; and when
    the mapping is the one of a response, [get_download_link] returns this
    link, which is not empty.  With 'hdtvrip1080p' and 'webrip720p'
    available, the preferences 'WEBRip 720p', 'HDTVRip 1080p' give the link
    of 'webrip720p', and a preference that is not available gives the link
    of the first entry. *)
Theorem get_download_link_prefers (prefs : list str) (m : dict str)
    (Hm : m <> []) :
  (forall p, ascii_str p = true ->
     sanitize_quality U (Some p) = stripped_lowercase p)
  /\ normalize_prefs U prefs
     = dedup_first (List.map (fun p => sanitize_quality U (Some p)) prefs)
  /\ (forallb ascii_str prefs = true ->
      normalize_prefs U prefs
      = dedup_first (List.map stripped_lowercase prefs))
  /\ (exists link,
       pick_link U prefs m = Ok link /\ In link (List.map snd m) /\
       ((exists l1 q l2,
            normalize_prefs U prefs = l1 ++ q :: l2 /\
            (forall p, In p l1 -> dict_get p m = None) /\
            dict_get q m = Some link)
        \/ ((forall p, In p (normalize_prefs U prefs) -> dict_get p m = None) /\
            exists k rest, m = (k, link) :: rest))
       /\ forall json, find_available_qualities U json = Ok m ->
            get_download_link U prefs json = Ok link /\ link <> [])
  /\ (forall L1 L2 : str,
       pick_link U [py "WEBRip 720p"; py "HDTVRip 1080p"]
         [(py "hdtvrip1080p", L1); (py "webrip720p", L2)] = Ok L2
       /\ pick_link U [py "BDRip 2160p"]
            [(py "hdtvrip1080p", L1); (py "webrip720p", L2)] = Ok L1).
Proof.
  split; [apply sanitize_quality_ascii|].
  split; [apply normalize_prefs_dedup|].
  split; [apply normalize_prefs_ascii|].
  split; [|intros L1 L2; split; reflexivity].
  destruct (pick_link_spec prefs Hm) as [link [Hp [Hin Hc]]].
  exists link. repeat split; try assumption.
  - unfold get_download_link. rewrite H. exact Hp.
  - apply in_map_iff in Hin. destruct Hin as [[k v] [<- Hin]].
    destruct (find_available_qualities_links _ _ _ H Hin)
      as [_ [_ [_ [_ [u [_ [_ [_ [_ [_ ->]]]]]]]]]].
    apply HOST_app_not_nil.
Qed.

(** C10: a link that [get_download_link] returns and that is not empty is
    [HOST] followed by the [url] of a variant of the response. *)
Theorem get_download_link_absolute (prefs : list str) (json : jvalue)
    (link : str)
    (Hlink : get_download_link U prefs json = Ok link) (Hne : link <> []) :
  exists data torrents items t u,
    getitem json (py "data") = Ok data /\
    getitem data (py "torrents") = Ok torrents /\
    py_iter torrents = Ok items /\
    In t items /\ getitem t (py "url") = Ok (JStr u) /\
    link = HOST ++ u /\ HOST = py "https://www.anilibria.tv".
Proof.
  unfold get_download_link in Hlink.
  apply bind_Ok_inv in Hlink. destruct Hlink as [m [Hm Hp]].
  destruct m as [|e m'] eqn:Em; [injection Hp as <-; congruence|].
  rewrite <- Em in *.
  destruct (@pick_link_spec prefs m) as [link' [Hp' [Hin _]]]; [congruence|].
  assert (link' = link) by congruence. subst link'.
  apply in_map_iff in Hin. destruct Hin as [[k v] [Hv Hin]]. simpl in Hv.
  subst v.
  destruct (find_available_qualities_links _ _ _ Hm Hin)
    as [data [torrents [items [t [u H]]]]].
  exists data, torrents, items, t, u. intuition.
Qed.

End Selector.

(** *** The theorems on a release in two batches *)


Lemma get_download_link_prefers_witness :
  [(py "hdtvrip1080p", py "L1"); (py "webrip720p", py "L2")] <> ([] : dict str)
  /\ normalize_prefs ucd_rows [py "WEBRip 720p"; py "HDTVRip 1080p"]
     = [py "webrip720p"; py "hdtvrip1080p"]
  /\ pick_link ucd_rows [py "WEBRip 720p"; py "HDTVRip 1080p"]
       [(py "hdtvrip1080p", py "L1"); (py "webrip720p", py "L2")]
     = Ok (py "L2").
Proof.
  assert (Hm : [(py "hdtvrip1080p", py "L1"); (py "webrip720p", py "L2")]
               <> ([] : dict str)) by discriminate.
  split; [exact Hm|].
  destruct (get_download_link_prefers ucd_rows
              [py "WEBRip 720p"; py "HDTVRip 1080p"] Hm)
    as [_ [_ [Hn [[link [Hp [_ [Hc _]]]] _]]]].
  specialize (Hn eq_refl).
  assert (E' : dedup_first
                 (List.map stripped_lowercase
                    [py "WEBRip 720p"; py "HDTVRip 1080p"])
               = [py "webrip720p"; py "hdtvrip1080p"]) by reflexivity.
  rewrite E' in Hn. split; [exact Hn|].
  rewrite Hp. f_equal.
  destruct Hc as [[l1 [q [l2 [E [Hnone Hq]]]]]|[Hnone _]].
  - rewrite Hn in E. destruct l1 as [|a l1].
    + injection E as <- _. injection Hq as <-. reflexivity.
    + injection E as <- _. exfalso.
      discriminate (Hnone _ (or_introl eq_refl)).
  - exfalso. rewrite Hn in Hnone.
    discriminate (Hnone _ (or_introl eq_refl)).
Defined.

(** The example of the specification: with 'hdtvrip1080p' and 'webrip720p'
    available and the preferences 'WEBRip 720p', 'HDTVRip 1080p', the link
    of 'webrip720p' is returned; with no preference available, the link of
    the first entry is. *)
Lemma pick_link_examples (U : unicode_db) :
  pick_link U [py "WEBRip 720p"; py "HDTVRip 1080p"]
    [(py "hdtvrip1080p", py "L1"); (py "webrip720p", py "L2")] = Ok (py "L2")
  /\ pick_link U [py "BDRip 2160p"]
    [(py "hdtvrip1080p", py "L1"); (py "webrip720p", py "L2")] = Ok (py "L1").
Proof. split; reflexivity. Qed.

(** On the two batches: 'HDTVRip 720p' and 'HDTVRip-720p' have one key, and
    the link under it is that of the later variant. *)
Lemma two_batches_last_write_wins (U : unicode_db) :
  exists m,
    find_available_qualities U (release two_batches) = Ok m /\
    keys m = [py "hdtvrip720p"; py "webrip720p"] /\
    dict_get (py "hdtvrip720p") m = Some (HOST ++ py "/upload/c.torrent").
Proof. eexists. repeat split; reflexivity. Qed.

Lemma get_download_link_absolute_witness :
  exists data torrents items t u,
    getitem (release two_batches) (py "data") = Ok data /\
    getitem data (py "torrents") = Ok torrents /\
    py_iter torrents = Ok items /\
    In t items /\ getitem t (py "url") = Ok (JStr u) /\
    py "https://www.anilibria.tv/upload/d.torrent" = HOST ++ u /\
    HOST = py "https://www.anilibria.tv".
Proof.
  assert (Hl : get_download_link ucd_rows [py "WEBRip 720p"]
                 (release two_batches)
               = Ok (py "https://www.anilibria.tv/upload/d.torrent"))
    by reflexivity.
  assert (Hne : py "https://www.anilibria.tv/upload/d.torrent" <> [])
    by discriminate.
  exact (get_download_link_absolute ucd_rows [py "WEBRip 720p"]
           (release two_batches) Hl Hne).
Defined.

(** ** The RPC session *)

Section Session.

Variable urljoin : str -> str -> str.
Variable str_mod : str -> pyval -> result str.
Variable server : trace -> request -> outcome.

Local Abbreviation query_ := (query urljoin str_mod server).
Local Abbreviation login_ := (login urljoin str_mod server).
Local Abbreviation auth_query_ := (auth_query urljoin str_mod server).
Local Abbreviation auth_query_json_ := (auth_query_json urljoin str_mod server).
Local Abbreviation method_add_torrent_ :=
  (method_add_torrent urljoin str_mod server).
Local Abbreviation login_request_ := (login_request urljoin).
Local Abbreviation get_request_url_ := (get_request_url urljoin str_mod).

Lemma login_calls_app (a b : trace) :
  login_calls (a ++ b) = login_calls a + login_calls b.
Proof. unfold login_calls. now rewrite filter_app, length_app. Qed.

(** [query] leaves the object as it is, never calls [login], and makes at
    most one request, which it has made when it returns. *)
Lemma query_run (data : dict pyval) (files : option (dict pyval))
    (self : QBittorrentRPC) (tr : trace) :
  exists res own,
    query_ data files self tr = (res, self, tr ++ own) /\
    login_calls own = 0 /\
    (own = [] \/
     exists url, get_request_url_ self data = Ok url /\
                 own = [Requested (request_of self data files url)]) /\
    (forall r, res = Ok r -> own <> []).
Proof.
  unfold query.
  destruct (dict_get (py "action") data) as [a|].
  2:{ exists (Raise KeyError), []. rewrite app_nil_r.
      repeat split; auto. discriminate. }
  unfold try_except, bindM, get_self, lift, send, raise.
  destruct (get_request_url_ self data) as [u|e] eqn:Eu.
  2:{ exists (Raise QBittorrentRPCException), []. rewrite app_nil_r.
      repeat split; auto. discriminate. }
  assert (Hown : login_calls [Requested (request_of self data files u)] = 0)
    by reflexivity.
  destruct (server tr (request_of self data files u)) as [r|].
  - destruct (status_code r =? 200)%Z.
    + exists (Ok r), [Requested (request_of self data files u)].
      repeat split; eauto. discriminate.
    + exists (Raise QBittorrentRPCException),
        [Requested (request_of self data files u)].
      repeat split; eauto. discriminate.
  - exists (Raise QBittorrentRPCException),
      [Requested (request_of self data files u)].
    repeat split; eauto. discriminate.
Qed.

(** What [login] does, by the answer of the server to its request. *)
Lemma login_run (self : QBittorrentRPC) (tr : trace) :
  login_ self tr =
  match server (tr ++ [Login_called]) (login_request_ self) with
  | Responded r =>
      if (status_code r =? 200)%Z && str_eqb (text r) (py "Ok.")
         && negb (is_None (resp_cookies r))
      then (Ok tt, with_cookies self (resp_cookies r),
            tr ++ [Login_called; Requested (login_request_ self)])
      else (Raise QBittorrentRPCException, self,
            tr ++ [Login_called; Requested (login_request_ self)])
  | Failed => (Raise QBittorrentRPCException, self,
               tr ++ [Login_called; Requested (login_request_ self)])
  end.
Proof.
  unfold login, query, bindM, emit, try_except, get_self,
    lift, send, raise, set_cookies.
  change (dict_get (py "action")
            (build_params (Some (py "login"))
               (Some [(py "data",
                       PDict [(py "username", PStr (user self));
                              (py "password", PStr (password self))])])))
    with (Some (PStr (py "login"))).
  cbv iota beta.
  change (get_request_url urljoin str_mod self
            (build_params (Some (py "login"))
               (Some [(py "data",
                       PDict [(py "username", PStr (user self));
                              (py "password", PStr (password self))])])))
    with (Ok (urljoin (url self) (py "login"))).
  cbv iota beta.
  change (request_of self
            (build_params (Some (py "login"))
               (Some [(py "data",
                       PDict [(py "username", PStr (user self));
                              (py "password", PStr (password self))])]))
            None (urljoin (url self) (py "login")))
    with (login_request_ self).
  replace (tr ++ [Login_called; Requested (login_request_ self)])
    with ((tr ++ [Login_called]) ++ [Requested (login_request_ self)])
    by (rewrite <- app_assoc; reflexivity).
  destruct (server (tr ++ [Login_called]) (login_request_ self)) as [r|];
    [|reflexivity].
  destruct (status_code r =? 200)%Z; [|reflexivity]. simpl.
  destruct (str_eqb (text r) (py "Ok.")); [|reflexivity]. simpl.
  destruct (is_None (resp_cookies r)); reflexivity.
Qed.

(** [login] stores the cookies of the response when the status is 200, the
    body is 'Ok.' and the cookies are not [None]. *)
Lemma login_stores (self : QBittorrentRPC) (tr : trace) (r : response)
    (jar : cookiejar) :
  server (tr ++ [Login_called]) (login_request_ self) = Responded r ->
  status_code r = 200%Z -> text r = py "Ok." -> resp_cookies r = Some jar ->
  login_ self tr =
  (Ok tt, with_cookies self (Some jar),
   tr ++ [Login_called; Requested (login_request_ self)]).
Proof.
  intros Hs H1 H2 H3. rewrite login_run, Hs, H1, H2, H3. reflexivity.
Qed.

(** In every other case it raises, and the object is as it was. *)
Lemma login_raises (self : QBittorrentRPC) (tr : trace) :
  (server (tr ++ [Login_called]) (login_request_ self) = Failed \/
   exists r, server (tr ++ [Login_called]) (login_request_ self) = Responded r
             /\ (status_code r <> 200%Z \/ text r <> py "Ok." \/
                 resp_cookies r = None)) ->
  login_ self tr =
  (Raise QBittorrentRPCException, self,
   tr ++ [Login_called; Requested (login_request_ self)]).
Proof.
  rewrite login_run. intros [->|[r [-> H]]]; [reflexivity|].
  destruct H as [H|[H|H]].
  - apply Z.eqb_neq in H. now rewrite H.
  - apply str_eqb_neq in H. rewrite H. now rewrite andb_false_r.
  - rewrite H. simpl. now rewrite andb_false_r.
Qed.

(** A jar without cookies is not [None]: [login] stores it and returns. *)
Lemma login_empty_jar (self : QBittorrentRPC) (tr : trace) (r : response) :
  server (tr ++ [Login_called]) (login_request_ self) = Responded r ->
  status_code r = 200%Z -> text r = py "Ok." -> resp_cookies r = Some [] ->
  login_ self tr =
  (Ok tt, with_cookies self (Some []),
   tr ++ [Login_called; Requested (login_request_ self)])
  /\ no_cookies (cookies (with_cookies self (Some []))) = true.
Proof.
  intros Hs H1 H2 H3. split; [now apply login_stores with (r := r) | reflexivity].
Qed.

(** The events of [login], whatever the answer. *)
Lemma login_events (self : QBittorrentRPC) (tr : trace) :
  exists res self',
    login_ self tr =
    (res, self', tr ++ [Login_called; Requested (login_request_ self)])
    /\ url self' = url self.
Proof.
  rewrite login_run.
  destruct (server (tr ++ [Login_called]) (login_request_ self)) as [r|];
    [|eauto].
  destruct ((status_code r =? 200)%Z && str_eqb (text r) (py "Ok.")
            && negb (is_None (resp_cookies r))); eauto.
Qed.

(** The step that [auth_query] and [auth_query_json] start with. *)
Lemma auth_step_run (self : QBittorrentRPC) (tr : trace) :
  exists res self' ev,
    (if no_cookies (cookies self) then login_ else ret tt) self tr
    = (res, self', tr ++ ev) /\
    url self' = url self /\
    (if no_cookies (cookies self)
     then ev = [Login_called; Requested (login_request_ self)]
     else ev = [] /\ self' = self /\ res = Ok tt).
Proof.
  destruct (no_cookies (cookies self)).
  - destruct (login_events self tr) as [res [self' [H Hu]]]. eauto 6.
  - exists (Ok tt), self, []. unfold ret. rewrite app_nil_r. auto.
Qed.

(** One call of [auth_query]: the events of the first step, and then those
    of [query], which is run only when the first step returns. *)
Lemma auth_query_run (data : dict pyval) (files : option (dict pyval))
    (self : QBittorrentRPC) (tr : trace) :
  exists res self' ev own,
    auth_query_ data files self tr = (res, self', tr ++ ev ++ own) /\
    url self' = url self /\
    (if no_cookies (cookies self)
     then ev = [Login_called; Requested (login_request_ self)]
     else ev = [] /\ self' = self) /\
    login_calls own = 0 /\
    (own = [] \/
     exists url, get_request_url_ self' data = Ok url /\
                 own = [Requested (request_of self' data files url)]) /\
    (forall r, res = Ok r -> own <> []).
Proof.
  unfold auth_query, bindM at 1, get_self. unfold bindM.
  destruct (auth_step_run self tr) as [res [self' [ev [E [Hurl Hev]]]]].
  rewrite E. destruct res as [[]|e].
  - destruct (query_run data files self' (tr ++ ev))
      as [res [own [Eq [Hc [Ho Hr]]]]].
    rewrite Eq. exists res, self', ev, own. rewrite app_assoc.
    repeat split; try assumption.
    destruct (no_cookies (cookies self)); tauto.
  - exists (Raise e), self', ev, []. rewrite app_nil_r.
    repeat split; auto; [|discriminate].
    destruct (no_cookies (cookies self)); [assumption|].
    destruct Hev as [_ [_ Hev]]. discriminate.
Qed.

Lemma auth_query_json_run (data : dict pyval) (files : option (dict pyval))
    (self : QBittorrentRPC) (tr : trace) :
  exists res self' ev own,
    auth_query_json_ data files self tr = (res, self', tr ++ ev ++ own) /\
    url self' = url self /\
    (if no_cookies (cookies self)
     then ev = [Login_called; Requested (login_request_ self)]
     else ev = [] /\ self' = self) /\
    login_calls own = 0 /\
    (own = [] \/
     exists url, get_request_url_ self' data = Ok url /\
                 own = [Requested (request_of self' data files url)]) /\
    (forall r, res = Ok r -> own <> []).
Proof.
  unfold auth_query_json, bindM at 1, get_self. unfold bindM, lift.
  destruct (auth_step_run self tr) as [res [self' [ev [E [Hurl Hev]]]]].
  rewrite E. destruct res as [[]|e].
  - destruct (query_run data files self' (tr ++ ev))
      as [res [own [Eq [Hc [Ho Hr]]]]].
    rewrite Eq. destruct res as [r|e].
    + exists (resp_json r), self', ev, own. rewrite app_assoc.
      repeat split; try assumption.
      * destruct (no_cookies (cookies self)); tauto.
      * intros _ _. now apply (Hr r).
    + exists (Raise e), self', ev, own. rewrite app_assoc.
      repeat split; try assumption; [|discriminate].
      destruct (no_cookies (cookies self)); tauto.
  - exists (Raise e), self', ev, []. rewrite app_nil_r.
    repeat split; auto; [|discriminate].
    destruct (no_cookies (cookies self)); [assumption|].
    destruct Hev as [_ [_ Hev]]. discriminate.
Qed.

Lemma auth_query_run_once (data : dict pyval) (files : option (dict pyval))
    (self : QBittorrentRPC) (tr : trace) :
  no_cookies (cookies self) = true ->
  logs_in_once (auth_query_ data files) (login_request_ self) self tr.
Proof.
  intros Hno.
  destruct (auth_query_run data files self tr)
    as [r1 [s1 [ev1 [own1 [E1 [_ [Hev1 [Hc1 [Ho1 Hr1]]]]]]]]].
  rewrite Hno in Hev1. subst ev1.
  exists r1, s1, own1. split; [exact E1|].
  split; [unfold login_calls in *; simpl; now rewrite Hc1|].
  split; [|exact Hr1].
  destruct Ho1 as [?|[u [_ ?]]]; eauto.
Qed.

(** One call of [auth_query] or of [auth_query_json]: a new object has an
    empty jar; on an object without cookies the call enters [login] once,
    before anything else, and next makes at most its own request; on an
    object with cookies it does not enter [login] and keeps the object as
    it is. *)
Theorem auth_query_logs_in_once (data : dict pyval)
    (files : option (dict pyval)) (self : QBittorrentRPC) (tr : trace) :
  (forall u h p us pw en,
     cookies (init u h p us pw en) = Some [] /\
     no_cookies (cookies (init u h p us pw en)) = true)
  /\ (no_cookies (cookies self) = true ->
      logs_in_once (auth_query_ data files) (login_request_ self) self tr /\
      logs_in_once (auth_query_json_ data files) (login_request_ self) self tr)
  /\ (no_cookies (cookies self) = false ->
      does_not_log_in (auth_query_ data files) self tr /\
      does_not_log_in (auth_query_json_ data files) self tr).
Proof.
  split; [intros; split; reflexivity|].
  destruct (auth_query_run data files self tr)
    as [r1 [s1 [ev1 [own1 [E1 [_ [Hev1 [Hc1 [Ho1 Hr1]]]]]]]]].
  destruct (auth_query_json_run data files self tr)
    as [r2 [s2 [ev2 [own2 [E2 [_ [Hev2 [Hc2 [Ho2 Hr2]]]]]]]]].
  split; intros Hno; rewrite Hno in Hev1, Hev2.
  - subst ev1 ev2. split.
    + now apply auth_query_run_once.
    + exists r2, s2, own2. split; [exact E2|].
      split; [unfold login_calls in *; simpl; now rewrite Hc2|].
      split; [|exact Hr2].
      destruct Ho2 as [?|[u [_ ?]]]; eauto.
  - destruct Hev1 as [-> ->]. destruct Hev2 as [-> ->]. split.
    + exists r1, own1. split; [exact E1|]. split; [exact Hc1|].
      split; [|exact Hr1].
      destruct Ho1 as [?|[u [_ ?]]]; eauto.
    + exists r2, own2. split; [exact E2|]. split; [exact Hc2|].
      split; [|exact Hr2].
      destruct Ho2 as [?|[u [_ ?]]]; eauto.
Qed.

(** C9, as amended: whenever [method_add_torrent] makes its own request, the
    request is a POST to the upload path with no [data] keyword, and its
    [files] keyword holds the content of the torrent under 'torrents' and,
    when a target path is given, the path under 'savepath'; the request has
    been made when the method returns. *)
Theorem method_add_torrent_request (torrent : dict pyval) (content : pyval)
    (download_to : option str) (self : QBittorrentRPC) (tr : trace)
    (Hcontent : dict_get (py "torrent") torrent = Some content) :
  exists res self' ev own,
    method_add_torrent_ torrent download_to self tr
    = (res, self', tr ++ ev ++ own) /\
    (ev = [] \/ ev = [Login_called; Requested (login_request_ self)]) /\
    (own = [] \/
     exists req,
       own = [Requested req] /\
       req_method req = POST /\
       req_url req = urljoin (url self) (py "command/upload") /\
       kw_data req = None /\
       kw_files req =
         Some ((py "torrents", content) ::
               match download_to with
               | Some d => [(py "savepath", PStr d)]
               | None => []
               end) /\
       file_attachment (py "torrents") content req /\
       (forall d, download_to = Some d ->
          file_attachment (py "savepath") (PStr d) req /\
          ~ form_field (py "savepath") (PStr d) req)) /\
    (forall r, res = Ok r -> own <> []).
Proof.
  unfold method_add_torrent. rewrite Hcontent.
  set (file_data :=
         match download_to with
         | Some d => dict_update [(py "torrents", content)]
                                 [(py "savepath", PStr d)]
         | None => [(py "torrents", content)]
         end).
  assert (Hfd : file_data =
                (py "torrents", content) ::
                match download_to with
                | Some d => [(py "savepath", PStr d)]
                | None => []
                end).
  { subst file_data. destruct download_to; reflexivity. }
  destruct (auth_query_run (build_params (Some (py "add_torrent")) None)
              (Some file_data) self tr)
    as [res [self' [ev [own [E [Hurl [Hev [_ [Ho Hr]]]]]]]]].
  exists res, self', ev, own. split; [exact E|].
  split; [destruct (no_cookies (cookies self)); tauto|].
  split; [|exact Hr].
  destruct Ho as [?|[u [Hu ->]]]; [now left|]. right.
  eexists. split; [reflexivity|].
  change (get_request_url urljoin str_mod self'
            (build_params (Some (py "add_torrent")) None))
    with (Ok (urljoin (url self') (py "command/upload"))) in Hu.
  injection Hu as <-. rewrite Hurl.
  assert (Hfiles : kw_files
            (request_of self' (build_params (Some (py "add_torrent")) None)
               (Some file_data) (urljoin (url self) (py "command/upload")))
          = Some file_data) by reflexivity.
  split; [reflexivity|]. split; [reflexivity|]. split; [reflexivity|].
  split; [now rewrite Hfiles, Hfd|].
  split.
  - exists file_data. split; [exact Hfiles|]. now rewrite Hfd.
  - intros d ->. split.
    + exists file_data. split; [exact Hfiles|]. now rewrite Hfd.
    + intros [f [Hf _]]. discriminate Hf.
Qed.

(** The operations that are one [auth_query]: on an object without cookies
    they log in once, first. *)
Lemma method_remove_torrent_logs_in_once (hash_str : str) (with_data : bool)
    (self : QBittorrentRPC) (tr : trace) :
  no_cookies (cookies self) = true ->
  logs_in_once (method_remove_torrent urljoin str_mod server hash_str with_data)
    (login_request_ self) self tr.
Proof.
  intros H. unfold method_remove_torrent.
  now apply auth_query_run_once.
Qed.

End Session.

(** *** The session on the sample servers *)

Lemma auth_query_logs_in_once_witness :
  logs_in_once
    (auth_query sample_urljoin sample_str_mod server_with_cookie
       (build_params (Some (py "api_version_path")) None) None)
    (login_request sample_urljoin fresh) fresh []
  /\ does_not_log_in
    (auth_query sample_urljoin sample_str_mod server_with_cookie
       (build_params (Some (py "api_version_path")) None) None)
    (with_cookies fresh (Some [(py "SID", py "0123abcd")])) [].
Proof.
  split.
  - apply (auth_query_logs_in_once sample_urljoin sample_str_mod
             server_with_cookie
             (build_params (Some (py "api_version_path")) None) None fresh []).
    reflexivity.
  - apply (auth_query_logs_in_once sample_urljoin sample_str_mod
             server_with_cookie
             (build_params (Some (py "api_version_path")) None) None
             (with_cookies fresh (Some [(py "SID", py "0123abcd")])) []).
    reflexivity.
Defined.

(** Two operations in a row on a new object, with a server that sets a
    cookie: one call of [login] in all, before the first request. *)
Lemma two_operations_one_login :
  let op := auth_query sample_urljoin sample_str_mod server_with_cookie
              (build_params (Some (py "api_version_path")) None) None in
  exists r1 r2 self' req1 req2,
    bindM op (fun r1 => bindM op (fun r2 => ret (r1, r2))) fresh []
    = (Ok (r1, r2), self',
       [Login_called; Requested (login_request sample_urljoin fresh);
        Requested req1; Requested req2])
    /\ no_cookies (cookies self') = false.
Proof. repeat eexists. Qed.

(** A server that cannot be reached: [login] raises and the object is as
    it was. *)
Lemma login_server_down :
  login sample_urljoin sample_str_mod server_down fresh []
  = (Raise QBittorrentRPCException, fresh,
     [Login_called; Requested (login_request sample_urljoin fresh)]).
Proof. reflexivity. Qed.

(** C8 at a response with status 200, body 'Ok.' and a jar without cookies:
    [login] returns without an exception, and the object has no cookies
    after it, as before. *)
Theorem login_without_cookie_returns :
  login sample_urljoin sample_str_mod server_without_cookie fresh []
  = (Ok tt, fresh,
     [Login_called; Requested (login_request sample_urljoin fresh)])
  /\ no_cookies (cookies fresh) = true.
Proof. split; reflexivity. Qed.

(** With a server that sets no cookie every operation logs in again. *)
Lemma two_operations_two_logins :
  let op := auth_query sample_urljoin sample_str_mod server_without_cookie
              (build_params (Some (py "api_version_path")) None) None in
  exists r self' tr,
    bindM op (fun _ => op) fresh [] = (Ok r, self', tr)
    /\ login_calls tr = 2.
Proof. repeat eexists. Qed.

Lemma method_add_torrent_request_witness :
  exists res self' ev own,
    method_add_torrent sample_urljoin sample_str_mod server_with_cookie
      [(py "torrent", PBytes [100; 56; 58]%N)] (Some (py "/downloads"))
      fresh []
    = (res, self', [] ++ ev ++ own) /\
    own <> [].
Proof.
  destruct (method_add_torrent_request sample_urljoin sample_str_mod
              server_with_cookie [(py "torrent", PBytes [100; 56; 58]%N)]
              (Some (py "/downloads")) fresh [] eq_refl)
    as [res [self' [ev [own [E [_ [_ Hr]]]]]]].
  exists res, self', ev, own. split; [exact E|].
  destruct res as [r|e]; [now apply (Hr r)|].
  vm_compute in E. discriminate E.
Defined.

(** C9 fails as stated: the target path goes into [file_data], which is
    passed as [files]; the request has no [data] keyword, so the path is
    not a form field of it. *)
Lemma method_add_torrent_savepath_in_files :
  exists r self' req,
    method_add_torrent sample_urljoin sample_str_mod server_with_cookie
      [(py "torrent", PBytes [100; 56; 58]%N)] (Some (py "/downloads"))
      fresh []
    = (Ok r, self',
       [Login_called; Requested (login_request sample_urljoin fresh);
        Requested req])
    /\ req_method req = POST
    /\ file_attachment (py "torrents") (PBytes [100; 56; 58]%N) req
    /\ file_attachment (py "savepath") (PStr (py "/downloads")) req
    /\ ~ form_field (py "savepath") (PStr (py "/downloads")) req.
Proof.
  do 3 eexists. split; [lazy; reflexivity|]. split; [reflexivity|].
  split; [eexists; split; reflexivity|].
  split; [eexists; split; reflexivity|].
  intros [d [Hd _]]. discriminate Hd.
Qed.

(** * The rest of the release selector *)

(** ** The release code of a page *)

Lemma starts_with_In (p s : str) :
  starts_with p s = true -> forall y, In y p -> In y s.
Proof.
  revert s. induction p as [|x p IH]; intros [|c s]; simpl;
    try discriminate; try tauto.
  rewrite andb_true_iff, N.eqb_eq. intros [-> H] y [<-|Hy]; auto.
Qed.

Lemma starts_with_app (p r : str) : starts_with p (p ++ r) = true.
Proof. induction p as [|x p IH]; simpl; [reflexivity|]. now rewrite N.eqb_refl. Qed.

(** A string that lacks a code point of [old] has no occurrence of it. *)
Lemma replace_from_absent (old new s : str) (y : N) :
  In y old -> ~ In y s -> replace_from old new 0 s = s.
Proof.
  intros Hy. induction s as [|c s IH]; intros Hn; [reflexivity|].
  cbn [replace_from].
  destruct (starts_with old (c :: s)) eqn:E.
  - elim Hn. exact (starts_with_In _ _ E y Hy).
  - f_equal. apply IH. intros H. apply Hn. now right.
Qed.

Lemma replace_from_skip (old new p r : str) :
  replace_from old new (List.length p) (p ++ r) = replace_from old new 0 r.
Proof.
  induction p as [|c p IH]; [destruct r; reflexivity|]. exact IH.
Qed.

Lemma replace_from_prefix (x : N) (old' new r : str) :
  replace_from (x :: old') new 0 ((x :: old') ++ r)
  = new ++ replace_from (x :: old') new 0 r.
Proof.
  change ((x :: old') ++ r) with (x :: (old' ++ r)). cbn [replace_from].
  change (x :: old' ++ r) with ((x :: old') ++ r).
  rewrite starts_with_app. f_equal.
  replace (List.length (x :: old') - 1) with (List.length old')
    by (simpl; lia).
  apply replace_from_skip.
Qed.

(** Code points that are not the first one of [old] are passed over. *)
Lemma replace_from_pass (x : N) (old' new p r : str) :
  ~ In x p ->
  replace_from (x :: old') new 0 (p ++ r)
  = p ++ replace_from (x :: old') new 0 r.
Proof.
  induction p as [|c p IH]; intros Hn; [reflexivity|].
  change ((c :: p) ++ r) with (c :: (p ++ r)). cbn [replace_from starts_with].
  destruct (x =? c)%N eqn:E.
  - apply N.eqb_eq in E. elim Hn. now left.
  - simpl. f_equal. apply IH. intros H. apply Hn. now right.
Qed.

(** X1: from the address of the page of a release, [extract_release_code] gives
    back the code, when the code has neither a slash nor a dot. *)
Theorem extract_release_code_of_page (code : str)
    (Hslash : ~ In 47%N code) (Hdot : ~ In 46%N code) :
  extract_release_code (HOST ++ py "/release/" ++ code ++ py ".html") = code.
Proof.
  unfold extract_release_code.
  assert (E1 : replace (HOST ++ py "/release/") []
                 (HOST ++ py "/release/" ++ code ++ py ".html")
               = code ++ py ".html").
  { rewrite (app_assoc HOST).
    set (P := HOST ++ py "/release/").
    assert (HP : exists x P', P = x :: P' /\ In 47%N P).
    { eexists _, _. split; [reflexivity|]. vm_compute. tauto. }
    destruct HP as [x [P' [-> H47]]].
    unfold replace. rewrite replace_from_prefix. simpl app at 1.
    apply (replace_from_absent _ _ _ 47%N H47).
    intros H. apply in_app_or in H. destruct H as [H|H]; [auto|].
    vm_compute in H. intuition discriminate. }
  rewrite E1.
  change (replace (py ".html") [] (code ++ py ".html"))
    with (replace_from (46%N :: py "html") [] 0 (code ++ py ".html")).
  rewrite (replace_from_pass _ _ _ _ _ Hdot).
  change (replace_from (46%N :: py "html") [] 0 (py ".html")) with (@nil N).
  apply app_nil_r.
Qed.

Lemma extract_release_code_of_page_witness :
  extract_release_code
    (HOST ++ py "/release/" ++ py "kabukichou-sherlock" ++ py ".html")
  = py "kabukichou-sherlock".
Proof.
  apply extract_release_code_of_page; vm_compute; intuition discriminate.
Defined.

Section MoreSelector.

Variable U : unicode_db.

(** ** The form of a Quality Key *)

(** X2: the key of a label made of ASCII code points has lowercase ASCII
    letters and ASCII digits only. *)
Theorem sanitize_quality_alphabet (x : str) (Hx : ascii_str x = true) :
  forall c, In c (sanitize_quality U (Some x)) ->
    ((97 <= c /\ c <= 122) \/ (48 <= c /\ c <= 57))%N.
Proof.
  intros c Hc. rewrite sanitize_quality_Some in Hc.
  unfold lower, REGEX_NON_WORD_sub in Hc.
  rewrite (ascii_str_filter _ _ Hx) in Hc.
  apply in_map_iff in Hc. destruct Hc as [d [<- Hd]].
  apply filter_In in Hd. destruct Hd as [Hin Hd].
  unfold ascii_str in Hx. rewrite forallb_forall in Hx.
  pose proof (Hx d Hin) as Ha.
  apply negb_true_iff in Hd. unfold REGEX_NON_WORD, is_word in Hd.
  rewrite Ha in Hd. apply orb_false_iff in Hd. destruct Hd as [Hw H95].
  rewrite H95 in Hw. simpl in Hw. apply negb_false_iff in Hw.
  unfold ascii_lower, ascii_letter, ascii_digit, ascii_upper in *.
  destruct ((65 <=? d) && (d <=? 90))%N eqn:Eu.
  - apply andb_true_iff in Eu. destruct Eu as [E1 E2].
    apply N.leb_le in E1, E2. left. lia.
  - simpl in Hw. apply orb_true_iff in Hw.
    destruct Hw as [Hw|Hw]; apply andb_true_iff in Hw; destruct Hw as [E1 E2];
      apply N.leb_le in E1, E2; [left | right]; lia.
Qed.


(** ** Ranges that are two numbers *)

Lemma split_first (sep : N) (a b : str) :
  ~ In sep a -> split sep (a ++ sep :: b) = a :: split sep b.
Proof.
  induction a as [|c a IH]; intros Hn; simpl.
  - now rewrite N.eqb_refl.
  - destruct (c =? sep)%N eqn:E.
    + apply N.eqb_eq in E. elim Hn. now left.
    + rewrite IH; [reflexivity|]. intros H. apply Hn. now right.
Qed.

Lemma split_whole (sep : N) (b : str) : ~ In sep b -> split sep b = [b].
Proof.
  induction b as [|c b IH]; intros Hn; simpl; [reflexivity|].
  destruct (c =? sep)%N eqn:E.
  - apply N.eqb_eq in E. elim Hn. now left.
  - rewrite IH; [reflexivity|]. intros H. apply Hn. now right.
Qed.

Lemma ascii_digit_range c : ascii_digit c = true -> (48 <= c /\ c <= 57)%N.
Proof.
  unfold ascii_digit. rewrite andb_true_iff, !N.leb_le. tauto.
Qed.

Lemma ascii_digit_val c :
  ascii_digit c = true -> digit_val U c = Some (c - 48)%N.
Proof.
  intros H. unfold digit_val, is_ascii. rewrite H.
  apply ascii_digit_range in H.
  replace (c <? 128)%N with true; [reflexivity|].
  symmetry. apply N.ltb_lt. lia.
Qed.

Lemma ascii_digit_not_space c : ascii_digit c = true -> is_space U c = false.
Proof.
  intros H. apply ascii_digit_range in H. unfold is_space, is_ascii.
  replace (c <? 128)%N with true by (symmetry; apply N.ltb_lt; lia).
  apply orb_false_iff. split.
  - apply andb_false_iff. right. apply N.leb_gt. lia.
  - apply N.eqb_neq. lia.
Qed.

Lemma digits_no (sep : N) (s : str) :
  (sep < 48 \/ 57 < sep)%N -> forallb ascii_digit s = true -> ~ In sep s.
Proof.
  intros Hs H Hin. rewrite forallb_forall in H.
  apply H, ascii_digit_range in Hin. lia.
Qed.

Lemma lstrip_digits (s : str) :
  forallb ascii_digit s = true -> lstrip U s = s.
Proof.
  destruct s as [|c s]; [reflexivity|]. simpl.
  rewrite andb_true_iff. intros [H _].
  now rewrite (ascii_digit_not_space _ H).
Qed.

Lemma strip_digits (s : str) :
  forallb ascii_digit s = true -> strip U s = s.
Proof.
  intros H. unfold strip. rewrite (lstrip_digits _ H).
  rewrite lstrip_digits; [apply rev_involutive|].
  rewrite forallb_forall in *. intros c Hc. apply H. now apply in_rev.
Qed.

Lemma parse_digits_digits (s : str) (acc : Z) (after_digit : bool) :
  forallb ascii_digit s = true -> s <> [] \/ after_digit = true ->
  parse_digits U acc after_digit s
  = Some (fold_left (fun acc c => (10 * acc + Z.of_N (c - 48))%Z) s acc).
Proof.
  revert acc after_digit. induction s as [|c s IH]; intros acc b H Hb.
  - destruct Hb as [Hb| ->]; [congruence | reflexivity].
  - simpl in H. apply andb_true_iff in H. destruct H as [Hc Hs].
    cbn [parse_digits fold_left]. rewrite (ascii_digit_val _ Hc).
    apply ascii_digit_range in Hc.
    replace (c =? 95)%N with false by (symmetry; apply N.eqb_neq; lia).
    apply IH; [exact Hs | now right].
Qed.

Lemma count_digits_digits (s : str) :
  forallb ascii_digit s = true -> count_digits s = List.length s.
Proof.
  unfold count_digits. induction s as [|c s IH]; [reflexivity|].
  simpl. rewrite andb_true_iff. intros [Hc Hs].
  apply ascii_digit_range in Hc.
  replace (c =? 95)%N with false by (symmetry; apply N.eqb_neq; lia).
  simpl. now rewrite IH.
Qed.

(** [int] on a run of ASCII digits: the number, unless the run is longer
    than the interpreter allows. *)
Lemma py_int_digits_limit (s : str) :
  forallb ascii_digit s = true -> s <> [] ->
  py_int U s = if (List.length s <=? int_max_str_digits)%nat
               then Ok (digits_value s) else Raise ValueError.
Proof.
  intros H Hne. unfold py_int. rewrite (strip_digits _ H).
  destruct s as [|c s]; [congruence|].
  assert (Hc : ascii_digit c = true)
    by (simpl in H; now apply andb_true_iff in H).
  apply ascii_digit_range in Hc.
  replace (c =? 45)%N with false by (symmetry; apply N.eqb_neq; lia).
  replace (c =? 43)%N with false by (symmetry; apply N.eqb_neq; lia).
  rewrite (@parse_digits_digits (c :: s) 0 false H) by now left.
  rewrite (count_digits_digits _ H).
  destruct (Nat.leb_spec (List.length (c :: s)) int_max_str_digits) as [L|L].
  - apply Nat.ltb_ge in L. rewrite L. reflexivity.
  - apply Nat.ltb_lt in L. rewrite L. reflexivity.
Qed.

Lemma py_int_digits (s : str) :
  forallb ascii_digit s = true -> s <> [] ->
  (List.length s <= int_max_str_digits)%nat ->
  py_int U s = Ok (digits_value s).
Proof.
  intros H Hne L. rewrite (py_int_digits_limit H Hne).
  apply Nat.leb_le in L. now rewrite L.
Qed.

Lemma skip_digits_digits (a r : str) (h : N) :
  forallb ascii_digit a = true -> is_digit U h = false ->
  skip_digits U (a ++ h :: r) = h :: r.
Proof.
  intros Ha Hh. induction a as [|c a IH]; simpl.
  - now rewrite Hh.
  - simpl in Ha. apply andb_true_iff in Ha. destruct Ha as [Hc Ha].
    unfold is_digit at 1. rewrite (ascii_digit_val _ Hc). now apply IH.
Qed.

(** X3: A series made of ASCII digits, a hyphen and ASCII digits passes the
    filter.  [to_tuple] returns the pair of the two numbers when neither run
    of digits is longer than [int] accepts (4300 digits), and raises
    [ValueError] when one is. *)
Theorem to_tuple_of_range (a b : str)
    (Ha : forallb ascii_digit a = true) (Hb : forallb ascii_digit b = true)
    (Hane : a <> []) (Hbne : b <> []) :
  REGEX_RANGE_match U (a ++ 45%N :: b) = true
  /\ to_tuple U (a ++ 45%N :: b)
     = if ((List.length a <=? int_max_str_digits)
           && (List.length b <=? int_max_str_digits))%nat
       then Ok [digits_value a; digits_value b]
       else Raise ValueError.
Proof.
  split.
  - destruct a as [|c a]; [congruence|]. destruct b as [|d b]; [congruence|].
    simpl in Ha, Hb. apply andb_true_iff in Ha, Hb.
    destruct Ha as [Hc Ha], Hb as [Hd Hb].
    change ((c :: a) ++ 45%N :: d :: b) with (c :: (a ++ 45%N :: d :: b)).
    cbn [REGEX_RANGE_match].
    rewrite (@skip_digits_digits a (d :: b) 45%N Ha); [|reflexivity].
    unfold is_digit. rewrite (ascii_digit_val _ Hc), (ascii_digit_val _ Hd).
    reflexivity.
  - unfold to_tuple.
    rewrite split_first by (apply digits_no; [lia | assumption]).
    rewrite split_whole by (apply digits_no; [lia | assumption]).
    cbn [mapM bind].
    rewrite (py_int_digits_limit Ha Hane), (py_int_digits_limit Hb Hbne).
    destruct (List.length a <=? int_max_str_digits)%nat;
      destruct (List.length b <=? int_max_str_digits)%nat; reflexivity.
Qed.

End MoreSelector.

Lemma sanitize_quality_alphabet_witness :
  ascii_str (py "WEBRip_1080p") = true /\
  ((97 <= 119 /\ 119 <= 122) \/ (48 <= 119 /\ 119 <= 57))%N.
Proof.
  split; [reflexivity|].
  apply (@sanitize_quality_alphabet ucd_rows (py "WEBRip_1080p") eq_refl 119%N).
  vm_compute. tauto.
Defined.

Lemma to_tuple_of_range_witness :
  REGEX_RANGE_match ucd_rows (py "21" ++ 45%N :: py "41") = true
  /\ to_tuple ucd_rows (py "21" ++ 45%N :: py "41") = Ok [21%Z; 41%Z].
Proof.
  apply (@to_tuple_of_range ucd_rows (py "21") (py "41"));
    try reflexivity; discriminate.
Defined.

(** The bound of [int] counts every digit, a leading zero too. *)
Lemma py_int_limit_examples :
  py_int ucd_rows (repeat 57%N 4300) = Ok (10 ^ 4300 - 1)%Z
  /\ py_int ucd_rows (repeat 57%N 4301) = Raise ValueError
  /\ py_int ucd_rows (repeat 48%N 4301) = Raise ValueError
  /\ py_int ucd_rows (py " +1_0 ") = Ok 10%Z.
Proof.
  split; [vm_compute; reflexivity|]. split; [vm_compute; reflexivity|].
  split; vm_compute; reflexivity.
Qed.

(** ** The groups and the mapping *)

Section KeysFacts.

Variable V : Type.
Implicit Types (d : dict V) (k : str) (v : V).

Lemma In_keys_dict_set k k' v d :
  In k' (keys (dict_set k v d)) <-> k' = k \/ In k' (keys d).
Proof.
  induction d as [|[k0 v0] d IH]; simpl.
  - intuition.
  - destruct (str_eqb k k0) eqn:E; simpl.
    + apply str_eqb_eq in E. subst k0. intuition.
    + rewrite IH. intuition.
Qed.

Lemma NoDup_keys_dict_set k v d :
  NoDup (keys d) -> NoDup (keys (dict_set k v d)).
Proof.
  induction d as [|[k0 v0] d IH]; simpl; intros H.
  - repeat constructor. intros [].
  - inversion H as [|? ? Hn Hd]; subst.
    destruct (str_eqb k k0) eqn:E; simpl; constructor; auto.
    rewrite In_keys_dict_set. intros [->|Hin]; [|auto].
    now rewrite str_eqb_refl in E.
Qed.

Lemma dict_get_None_keys k d : dict_get k d = None <-> ~ In k (keys d).
Proof.
  split.
  - intros H Hin. destruct (dict_get_keys _ _ Hin) as [v Hv]. congruence.
  - intros H. destruct (dict_get k d) as [v|] eqn:E; [|reflexivity].
    elim H. apply dict_get_In in E. change k with (fst (k, v)).
    now apply in_map.
Qed.

Lemma length_dict_set k v d :
  List.length (dict_set k v d) <= S (List.length d).
Proof.
  induction d as [|[k0 v0] d IH]; simpl; [lia|].
  destruct (str_eqb k k0); simpl; lia.
Qed.

End KeysFacts.

Section Groups.

Variable U : unicode_db.

Lemma has_series_true k t :
  has_series k t = true <-> getitem t (py "series") = Ok (JStr k).
Proof.
  unfold has_series. destruct (getitem t (py "series")) as [[]|];
    try (split; [discriminate | congruence]).
  rewrite str_eqb_eq. split; congruence.
Qed.

(** The group of a series is the list of the variants of that series, in
    the order of the response. *)
Lemma group_by_series_filter items acc s2t k :
  group_by_series U items acc = Ok s2t ->
  defaultdict_get k s2t =
  defaultdict_get k acc ++
  (if REGEX_RANGE_match U k then filter (has_series k) items else []).
Proof.
  revert acc. induction items as [|x items IH]; intros acc H.
  - injection H as <-. destruct (REGEX_RANGE_match U k); now rewrite app_nil_r.
  - cbn [group_by_series] in H.
    destruct (getitem x (py "series")) as [sv|] eqn:Es;
      [cbn [bind] in H|discriminate].
    destruct sv as [| | | |s| |]; try discriminate.
    assert (Hx : has_series k x = str_eqb s k)
      by (unfold has_series; now rewrite Es).
    cbn [filter]. rewrite Hx.
    destruct (REGEX_RANGE_match U s) eqn:Em.
    + rewrite (IH _ H). destruct (str_eqb s k) eqn:Ek.
      * apply str_eqb_eq in Ek. subst k. rewrite Em.
        rewrite defaultdict_get_set_same, <- app_assoc. reflexivity.
      * apply str_eqb_neq in Ek.
        now rewrite defaultdict_get_set_other by assumption.
    + rewrite (IH _ H). destruct (str_eqb s k) eqn:Ek; [|reflexivity].
      apply str_eqb_eq in Ek. subst k. now rewrite Em.
Qed.

Lemma group_by_series_total items acc :
  (forall t, In t items -> exists s, getitem t (py "series") = Ok (JStr s)) ->
  exists s2t, group_by_series U items acc = Ok s2t.
Proof.
  revert acc. induction items as [|x items IH]; intros acc H.
  - now exists acc.
  - destruct (H x (or_introl eq_refl)) as [s Hs].
    cbn [group_by_series]. rewrite Hs. cbn [bind].
    destruct (REGEX_RANGE_match U s); apply IH; intros; apply H; now right.
Qed.

(** X4: when every variant is a dict with a string under 'series', the
    grouping returns, and the group of a series that passes the filter is
    the list of the variants of that series, in the order of the response;
    a series that does not pass has no group. *)
Theorem group_by_series_groups (items : list jvalue)
    (Hseries : forall t, In t items ->
                 exists s, getitem t (py "series") = Ok (JStr s)) :
  exists s2t,
    group_by_series U items [] = Ok s2t /\
    forall k, defaultdict_get k s2t =
              if REGEX_RANGE_match U k then filter (has_series k) items
              else [].
Proof.
  destruct (group_by_series_total _ [] Hseries) as [s2t H].
  exists s2t. split; [exact H|]. intros k.
  now rewrite (group_by_series_filter _ _ k H).
Qed.

Lemma group_by_series_keys items acc s2t :
  group_by_series U items acc = Ok s2t ->
  NoDup (keys acc) ->
  (forall k, In k (keys acc) -> defaultdict_get k acc <> []) ->
  NoDup (keys s2t) /\
  (forall k, In k (keys s2t) -> defaultdict_get k s2t <> []).
Proof.
  revert acc. induction items as [|x items IH]; intros acc H Hn Hg.
  - injection H as <-. auto.
  - cbn [group_by_series] in H.
    destruct (getitem x (py "series")) as [sv|]; [cbn [bind] in H|discriminate].
    destruct sv as [| | | |s| |]; try discriminate.
    destruct (REGEX_RANGE_match U s); [|now apply (IH acc)].
    apply (IH _ H); [now apply NoDup_keys_dict_set|].
    intros k Hk. apply In_keys_dict_set in Hk.
    destruct (list_eq_dec N.eq_dec s k) as [->|Hne].
    + rewrite defaultdict_get_set_same. now destruct (defaultdict_get k acc).
    + rewrite defaultdict_get_set_other by assumption.
      destruct Hk as [->|Hk]; [congruence | now apply Hg].
Qed.

(** X5: the keys of the groups are distinct, and they are the series that pass
    the filter and that some variant has; no group is empty. *)
Theorem group_by_series_series (items : list jvalue)
    (s2t : dict (list jvalue))
    (Hgroups : group_by_series U items [] = Ok s2t) :
  NoDup (keys s2t) /\
  (forall k, In k (keys s2t) <->
     REGEX_RANGE_match U k = true /\
     exists t, In t items /\ getitem t (py "series") = Ok (JStr k)) /\
  (forall k, In k (keys s2t) -> defaultdict_get k s2t <> []).
Proof.
  destruct (group_by_series_keys _ _ Hgroups) as [Hn Hg];
    [constructor | intros k [] |].
  split; [exact Hn|]. split; [|exact Hg].
  intros k. pose proof (group_by_series_filter _ _ k Hgroups) as Hf.
  simpl in Hf. split.
  - intros Hk. apply Hg in Hk. rewrite Hf in Hk.
    destruct (REGEX_RANGE_match U k); [|congruence]. split; [reflexivity|].
    destruct (filter (has_series k) items) as [|t l] eqn:E; [congruence|].
    assert (Ht : In t (filter (has_series k) items)) by (rewrite E; now left).
    apply filter_In in Ht. destruct Ht as [Hin Hs].
    exists t. split; [exact Hin | now apply has_series_true].
  - intros [Hm [t [Hin Hs]]]. rewrite Hm in Hf.
    apply has_series_true in Hs.
    assert (Ht : In t (defaultdict_get k s2t))
      by (rewrite Hf; apply filter_In; auto).
    unfold defaultdict_get in Ht.
    destruct (dict_get k s2t) as [l|] eqn:E; [|destruct Ht].
    apply dict_get_In in E. change k with (fst (k, l)). now apply in_map.
Qed.

Lemma fill_qualities_keys g acc m :
  fill_qualities U g acc = Ok m ->
  NoDup (keys acc) ->
  NoDup (keys m) /\
  (forall k, In k (keys m) <->
     In k (keys acc) \/ exists t, In t g /\ quality_key U t k) /\
  List.length m <= List.length acc + List.length g.
Proof.
  revert acc. induction g as [|t g IH]; intros acc H Hn.
  - injection H as <-. split; [exact Hn|]. split; [|simpl; lia].
    intros k. split; [auto|]. intros [H|[t [[] _]]]. exact H.
  - pose proof H as H0.
    apply fill_qualities_step in H. destruct H as [k' [u [Hq [Hu H]]]].
    assert (Hn2 : NoDup (keys (dict_set k' (HOST ++ u) acc)))
      by now apply NoDup_keys_dict_set.
    destruct (IH _ H Hn2) as [Hn' [Hk Hl]].
    split; [exact Hn'|]. split.
    + intros k. rewrite Hk, In_keys_dict_set. split.
      * intros [[->|Hin]|[t' [Ht' Hq']]]; eauto.
        -- right. exists t. split; [now left | exact Hq].
        -- right. exists t'. split; [now right | exact Hq'].
      * intros [Hin|[t' [[<-|Ht'] Hq']]]; eauto.
        left. left. destruct Hq as [q [Hq1 Hq2]], Hq' as [q' [Hq1' Hq2']].
        congruence.
    + apply Nat.le_trans with (1 := Hl). cbn [List.length].
      rewrite Nat.add_succ_r, <- Nat.add_succ_l. apply Nat.add_le_mono_r.
      apply length_dict_set.
Qed.

(** X6: the mapping that [find_available_qualities] returns has distinct keys,
    and each of them is the Quality Key of a variant of the response. *)
Theorem find_available_qualities_keys (json : jvalue) (m : dict str)
    (Hfind : find_available_qualities U json = Ok m) :
  NoDup (keys m) /\
  forall k, In k (keys m) ->
    exists data torrents items t,
      getitem json (py "data") = Ok data /\
      getitem data (py "torrents") = Ok torrents /\
      py_iter torrents = Ok items /\
      In t items /\ quality_key U t k.
Proof.
  destruct m as [|e m'] eqn:Em.
  { split; [constructor | intros k []]. }
  rewrite <- Em in *.
  destruct (@find_available_qualities_inv U json m Hfind) as
    [data [torrents [items [s0 [s2t [Hd [Ht [Hi [Hs Hf]]]]]]]]];
    [congruence|].
  destruct (fill_qualities_keys _ _ Hf) as [Hn [Hk _]]; [constructor|].
  split; [exact Hn|]. intros k Hin. apply Hk in Hin.
  destruct Hin as [[]|[t [Hg Hq]]].
  apply selected_series_inv in Hs. destruct Hs as [Hg0 _].
  destruct (@group_by_series_members U items [] s2t s0 t Hg0 Hg)
    as [[]|[Ht' _]].
  exists data, torrents, items, t. auto.
Qed.

(** X7: A response that is not a dict has no [get]: [AttributeError]; a dict
    whose 'status' is missing or false gives the empty string, whatever
    else it holds. *)
Theorem get_download_link_soft_failure (prefs : list str) (json : jvalue) :
  match json with
  | JObj d =>
      truthy (match dict_get (py "status") d with
              | Some v => v
              | None => JBool false
              end) = false ->
      get_download_link U prefs json = Ok []
  | _ => get_download_link U prefs json = Raise AttributeError
  end.
Proof.
  destruct json; try reflexivity.
  apply get_download_link_status_false.
Qed.

(** X8: with the preferences that [__init__] sets when none are given, the link
    is that of 'hdtvrip1080p' when the mapping has it, else that of
    'hdtvrip720p', else that of 'webrip720p', else that of the first
    entry. *)
Theorem pick_link_default_prefs (m : dict str) :
  pick_link U (tracker_init None) m =
  Ok match dict_get (py "hdtvrip1080p") m with
     | Some link => link
     | None =>
       match dict_get (py "hdtvrip720p") m with
       | Some link => link
       | None =>
         match dict_get (py "webrip720p") m with
         | Some link => link
         | None => match m with
                   | first :: _ => snd first
                   | [] => []
                   end
         end
       end
     end.
Proof.
  destruct m as [|e m']; [reflexivity|].
  unfold pick_link.
  change (normalize_prefs U (tracker_init None))
    with [py "hdtvrip1080p"; py "hdtvrip720p"; py "webrip720p"].
  cbn [filter]. unfold dict_has.
  set (m := e :: m').
  destruct (dict_get (py "hdtvrip1080p") m) as [l1|] eqn:E1.
  { now rewrite E1. }
  destruct (dict_get (py "hdtvrip720p") m) as [l2|] eqn:E2.
  { now rewrite E2. }
  destruct (dict_get (py "webrip720p") m) as [l3|] eqn:E3.
  { now rewrite E3. }
  reflexivity.
Qed.

(** C6: the mapping of a response is filled from the variants of the
    selected series, in the order in which the response lists them; when
    two of these variants have the same Quality Key, the mapping has under
    the key the link of the later one, provided no variant of the series
    after it has the key again. *)
Theorem later_variant_overwrites (json : jvalue) (m : dict str)
    (Hfind : find_available_qualities U json = Ok m) (Hm : m <> []) :
  exists data torrents items s0 s2t,
    getitem json (py "data") = Ok data /\
    getitem data (py "torrents") = Ok torrents /\
    py_iter torrents = Ok items /\
    selected_series U items = Ok (s0, s2t) /\
    defaultdict_get s0 s2t = filter (has_series s0) items /\
    fill_qualities U (filter (has_series s0) items) [] = Ok m /\
    forall i1 t1 i2 t2 i3 k u2,
      items = i1 ++ t1 :: i2 ++ t2 :: i3 ->
      has_series s0 t1 = true -> has_series s0 t2 = true ->
      quality_key U t1 k -> quality_key U t2 k ->
      getitem t2 (py "url") = Ok (JStr u2) ->
      (forall t, In t i3 -> has_series s0 t = true -> ~ quality_key U t k) ->
      dict_get k m = Some (HOST ++ u2).
Proof.
  destruct (@find_available_qualities_inv U json m Hfind Hm) as
    [data [torrents [items [s0 [s2t [Hd [Ht [Hi [Hs Hf]]]]]]]]].
  exists data, torrents, items, s0, s2t.
  split; [exact Hd|]. split; [exact Ht|]. split; [exact Hi|].
  split; [exact Hs|].
  pose proof Hs as Hg0. apply selected_series_inv in Hg0.
  destruct Hg0 as [Hg0 _].
  assert (Hgrp : defaultdict_get s0 s2t = filter (has_series s0) items).
  { pose proof (group_by_series_filter _ _ s0 Hg0) as E. simpl in E.
    destruct (REGEX_RANGE_match U s0); [exact E|].
    rewrite E in Hf. injection Hf as <-. congruence. }
  split; [exact Hgrp|]. rewrite Hgrp in Hf. split; [exact Hf|].
  intros i1 t1 i2 t2 i3 k u2 Hitems _ Hs2 _ Hk2 Hu2 Hlast.
  rewrite Hitems in Hf.
  replace (i1 ++ t1 :: i2 ++ t2 :: i3) with ((i1 ++ t1 :: i2) ++ t2 :: i3) in Hf
    by (rewrite <- app_assoc; reflexivity).
  rewrite filter_app in Hf. cbn [filter] in Hf. rewrite Hs2 in Hf.
  apply fill_qualities_app in Hf. destruct Hf as [m1 [_ Hf]].
  apply fill_qualities_step in Hf. destruct Hf as [k' [u' [Hk' [Hu' Hf]]]].
  assert (Hkeep : forall t, In t (filter (has_series s0) i3) ->
                    ~ quality_key U t k).
  { intros t Ht'. apply filter_In in Ht'. destruct Ht' as [Hin Hser].
    now apply Hlast. }
  apply fill_qualities_keeps with (k := k) in Hf; [|exact Hkeep].
  rewrite Hf.
  destruct Hk2 as [q [Hq1 Hq2]]. destruct Hk' as [q' [Hq1' Hq2']].
  assert (k' = k) by congruence. assert (u' = u2) by congruence. subst.
  apply dict_get_set_same.
Qed.

End Groups.

Lemma later_variant_overwrites_witness :
  find_available_qualities ucd_rows (release two_batches)
    = Ok two_batches_qualities
  /\ two_batches_qualities <> []
  /\ dict_get (py "hdtvrip720p") two_batches_qualities
     = Some (HOST ++ py "/upload/c.torrent").
Proof.
  assert (Hf : find_available_qualities ucd_rows (release two_batches)
               = Ok two_batches_qualities) by reflexivity.
  assert (Hm : two_batches_qualities <> []) by discriminate.
  split; [exact Hf|]. split; [exact Hm|].
  destruct (later_variant_overwrites ucd_rows (release two_batches) Hf Hm)
    as [data [torrents [items [s0 [s2t [Hd [Ht [Hi [Hs [_ [_ Hall]]]]]]]]]]].
  injection Hd as <-. injection Ht as <-. injection Hi as <-.
  assert (Hs' : selected_series ucd_rows two_batches
                = Ok (py "21-41", two_batches_groups)) by reflexivity.
  rewrite Hs' in Hs. injection Hs as <- <-.
  apply (Hall [variant "1-20" "WEBRip 1080p" "/upload/a.torrent"]
              (variant "21-41" "HDTVRip 720p" "/upload/b.torrent") []
              (variant "21-41" "HDTVRip-720p" "/upload/c.torrent")
              [variant "21-41" "WEBRip 720p" "/upload/d.torrent"]);
    try reflexivity.
  - exists (JStr (py "HDTVRip 720p")). split; reflexivity.
  - exists (JStr (py "HDTVRip-720p")). split; reflexivity.
  - intros t [<-|[]] _ [q [Hq Hk]].
    injection Hq as <-. vm_compute in Hk. discriminate Hk.
Defined.

Lemma group_by_series_groups_witness :
  exists s2t,
    group_by_series ucd_rows two_batches [] = Ok s2t /\
    forall k, defaultdict_get k s2t =
              if REGEX_RANGE_match ucd_rows k
              then filter (has_series k) two_batches else [].
Proof.
  apply group_by_series_groups. simpl.
  intros t [<-|[<-|[<-|[<-|[]]]]]; eexists; reflexivity.
Defined.

Lemma group_by_series_series_witness :
  NoDup (keys two_batches_groups) /\
  In (py "21-41") (keys two_batches_groups).
Proof.
  destruct (@group_by_series_series ucd_rows two_batches two_batches_groups
              eq_refl) as [Hn [Hk _]].
  split; [exact Hn|]. apply Hk. split; [reflexivity|].
  exists (variant "21-41" "WEBRip 720p" "/upload/d.torrent").
  split; [simpl; tauto | reflexivity].
Defined.

Lemma find_available_qualities_keys_witness :
  NoDup (keys two_batches_qualities).
Proof.
  exact (proj1 (@find_available_qualities_keys ucd_rows (release two_batches)
                  two_batches_qualities eq_refl)).
Defined.

(** A float is false when it is zero: a status that was decoded to [0.0]
    or [-0.0] is a failure, [nan] and [inf] are not. *)
Lemma truthy_float_examples :
  truthy (JFloat PrimFloat.zero) = false
  /\ truthy (JFloat PrimFloat.neg_zero) = false
  /\ truthy (JFloat PrimFloat.nan) = true
  /\ truthy (JFloat PrimFloat.infinity) = true
  /\ truthy (JFloat PrimFloat.one) = true
  /\ get_download_link ucd_rows []
       (JObj [(py "status", JFloat PrimFloat.zero);
              (py "data", JObj [(py "torrents", JArr two_batches)])])
     = Ok [].
Proof. repeat split. Qed.

Lemma get_download_link_soft_failure_witness :
  get_download_link ucd_rows [py "WEBRip 720p"]
    (JObj [(py "status", JInt 0); (py "data", JArr [])]) = Ok [].
Proof.
  exact (get_download_link_soft_failure ucd_rows [py "WEBRip 720p"]
           (JObj [(py "status", JInt 0); (py "data", JArr [])]) eq_refl).
Defined.

(** * The rest of the RPC session *)

(** ** Documents *)

Lemma dict_update_get {V} (d params : dict V) (k : str) :
  dict_get k (dict_update d params) =
  match last_binding k params with
  | Some v => Some v
  | None => dict_get k d
  end.
Proof.
  unfold dict_update. revert d.
  induction params as [|[k' v] params IH]; intros d; [reflexivity|].
  cbn [fold_left last_binding fst snd]. rewrite IH.
  destruct (last_binding k params) as [w|]; [reflexivity|].
  destruct (str_eqb k k') eqn:E.
  - apply str_eqb_eq in E. subst k'. apply dict_get_set_same.
  - apply str_eqb_neq in E. apply dict_get_set_other. congruence.
Qed.

(** X9: the document of [build_params] has, under every key, the last value
    that [params] gives to it, and under 'action' the action when [params]
    does not give one; so it always has an 'action'. *)
Theorem build_params_get (action : option str) (params : dict pyval)
    (k : str) :
  dict_get k (build_params action (Some params)) =
  match last_binding k params with
  | Some v => Some v
  | None =>
      if str_eqb k (py "action")
      then Some match action with Some a => PStr a | None => PNone end
      else None
  end
  /\ dict_get (py "action") (build_params action (Some params)) <> None.
Proof.
  unfold build_params. rewrite !dict_update_get. split.
  - destruct (last_binding k params); [reflexivity|].
    cbn [dict_get]. now destruct (str_eqb k (py "action")).
  - destruct (last_binding (py "action") params); discriminate.
Qed.

(** ** Requests *)

Section MoreSession.

Variable urljoin : str -> str -> str.
Variable str_mod : str -> pyval -> result str.
Variable server : trace -> request -> outcome.

Local Abbreviation query_ := (query urljoin str_mod server).
Local Abbreviation login_ := (login urljoin str_mod server).
Local Abbreviation auth_query_ := (auth_query urljoin str_mod server).
Local Abbreviation login_request_ := (login_request urljoin).
Local Abbreviation get_request_url_ := (get_request_url urljoin str_mod).

(** X10: an action that [api_map] does not have: [query] raises its exception,
    sends nothing and leaves the object as it is. *)
Theorem query_unknown_action (data : dict pyval) (files : option (dict pyval))
    (self : QBittorrentRPC) (tr : trace) (a : str)
    (Haction : dict_get (py "action") data = Some (PStr a))
    (Hunknown : dict_get a api_map = None) :
  query_ data files self tr = (Raise QBittorrentRPCException, self, tr).
Proof.
  unfold query. rewrite Haction.
  unfold try_except, bindM, get_self, lift, get_request_url.
  now rewrite Haction, Hunknown.
Qed.

Lemma query_sends (data : dict pyval) (files : option (dict pyval))
    (self : QBittorrentRPC) (tr : trace) (a : pyval) (address : str) :
  dict_get (py "action") data = Some a ->
  get_request_url_ self data = Ok address ->
  query_ data files self tr =
  (match server tr (request_of self data files address) with
   | Responded r =>
       if (status_code r =? 200)%Z then Ok r
       else Raise QBittorrentRPCException
   | Failed => Raise QBittorrentRPCException
   end,
   self, tr ++ [Requested (request_of self data files address)]).
Proof.
  intros Haction Haddress. unfold query. rewrite Haction.
  unfold try_except, bindM, get_self, lift, send, raise.
  rewrite Haddress.
  destruct (server tr (request_of self data files address)) as [r|];
    [|reflexivity].
  destruct (status_code r =? 200)%Z; reflexivity.
Qed.

(** X11: when the address of the action is found, [query] sends one request and
    leaves the object as it is; it returns a response exactly when the
    server gives that response with status 200, and it raises its exception
    on any other status and when the transport fails. *)
Theorem query_outcome (data : dict pyval) (files : option (dict pyval))
    (self : QBittorrentRPC) (tr : trace) (a : pyval) (address : str)
    (Haction : dict_get (py "action") data = Some a)
    (Haddress : get_request_url_ self data = Ok address) :
  exists res,
    query_ data files self tr =
    (res, self, tr ++ [Requested (request_of self data files address)]) /\
    (forall r, res = Ok r <->
       server tr (request_of self data files address) = Responded r /\
       status_code r = 200%Z) /\
    ((forall r, res <> Ok r) -> res = Raise QBittorrentRPCException).
Proof.
  rewrite (query_sends data files self tr Haction Haddress).
  destruct (server tr (request_of self data files address)) as [r|].
  - destruct (status_code r =? 200)%Z eqn:E.
    + apply Z.eqb_eq in E. eexists. split; [reflexivity|]. split.
      * intros r'. split; [intros [= <-]; auto | intros [[= <-] _]; auto].
      * intros H. elim (H r). reflexivity.
    + apply Z.eqb_neq in E. eexists. split; [reflexivity|]. split; [|auto].
      intros r'. split; [discriminate | intros [[= <-] H]; contradiction].
  - eexists. split; [reflexivity|]. split; [|auto].
    intros r'. split; [discriminate | intros [H _]; discriminate H].
Qed.

Lemma request_of_fields (self : QBittorrentRPC) (data : dict pyval)
    (files : option (dict pyval)) (address : str) :
  kw_cookies (request_of self data files address) = cookies self
  /\ kw_data (request_of self data files address) = dict_get (py "data") data
  /\ kw_files (request_of self data files address) = files
  /\ req_url (request_of self data files address) = address.
Proof.
  unfold request_of.
  destruct (dict_get (py "data") data), files; repeat split; reflexivity.
Qed.

(** X12: the request of [query] is a GET exactly when the document has no
    'data' and no files are given; it carries the cookies of the object,
    the 'data' of the document and the files. *)
Theorem request_of_method (self : QBittorrentRPC) (data : dict pyval)
    (files : option (dict pyval)) (address : str) :
  (req_method (request_of self data files address) = GET <->
   dict_get (py "data") data = None /\ files = None)
  /\ (req_method (request_of self data files address) = POST <->
      dict_get (py "data") data <> None \/ files <> None)
  /\ kw_cookies (request_of self data files address) = cookies self
  /\ kw_data (request_of self data files address) = dict_get (py "data") data
  /\ kw_files (request_of self data files address) = files
  /\ req_url (request_of self data files address) = address.
Proof.
  unfold request_of.
  destruct (dict_get (py "data") data) as [d|], files as [f|]; simpl;
    repeat split; try congruence; try tauto; try discriminate;
    try (intros [H _]; discriminate H); try (intros [_ H]; discriminate H);
    try (intros [H|H]; congruence); auto; try (intros _; left; discriminate);
    try (intros _; right; discriminate).
Qed.

(** ** Logging in *)

(** X13: [login] sends one POST with the user and the password as form fields.
    It returns exactly when the response has status 200, the body 'Ok.'
    and cookies that are not [None], and then the object has the cookies
    of the response; in every other case it raises its exception and the
    object is as it was. *)
Theorem login_outcome (self : QBittorrentRPC) (tr : trace) :
  exists res self',
    login_ self tr =
    (res, self', tr ++ [Login_called; Requested (login_request_ self)]) /\
    req_method (login_request_ self) = POST /\
    form_field (py "username") (PStr (user self)) (login_request_ self) /\
    form_field (py "password") (PStr (password self)) (login_request_ self) /\
    (res = Ok tt <->
     exists r,
       server (tr ++ [Login_called]) (login_request_ self) = Responded r /\
       status_code r = 200%Z /\ text r = py "Ok." /\
       resp_cookies r <> None) /\
    (res = Ok tt ->
     exists r,
       server (tr ++ [Login_called]) (login_request_ self) = Responded r /\
       self' = with_cookies self (resp_cookies r)) /\
    (res <> Ok tt -> res = Raise QBittorrentRPCException /\ self' = self).
Proof.
  rewrite login_run.
  assert (Hf1 : form_field (py "username") (PStr (user self))
                  (login_request_ self))
    by (eexists; split; reflexivity).
  assert (Hf2 : form_field (py "password") (PStr (password self))
                  (login_request_ self))
    by (eexists; split; reflexivity).
  destruct (server (tr ++ [Login_called]) (login_request_ self)) as [r|] eqn:Es.
  2:{ eexists _, _. split; [reflexivity|]. repeat split; auto;
      try discriminate. intros [r [H _]]. discriminate H. }
  destruct (status_code r =? 200)%Z eqn:E1; cbn [andb].
  2:{ eexists _, _. split; [reflexivity|]. repeat split; auto;
      try discriminate. intros [r' [[= <-] [H _]]].
      apply Z.eqb_neq in E1. contradiction. }
  destruct (str_eqb (text r) (py "Ok.")) eqn:E2; cbn [andb].
  2:{ eexists _, _. split; [reflexivity|]. repeat split; auto;
      try discriminate. intros [r' [[= <-] [_ [H _]]]].
      apply str_eqb_neq in E2. contradiction. }
  apply Z.eqb_eq in E1. apply str_eqb_eq in E2.
  destruct (resp_cookies r) as [jar|] eqn:E3; cbn [is_None negb].
  - eexists _, _. split; [reflexivity|]. repeat split; auto.
    + intros _. exists r. rewrite E3. repeat split; auto. discriminate.
    + intros _. exists r. now rewrite E3.
    + congruence.
    + congruence.
  - eexists _, _. split; [reflexivity|]. repeat split; auto;
      try discriminate. intros [r' [[= <-] [_ [_ H]]]]. congruence.
Qed.

(** X14: on an object without cookies, when the login is accepted, [auth_query]
    sends its own request with the cookies that [login] has just stored,
    and the object keeps them. *)
Theorem auth_query_attaches_new_cookies (data : dict pyval)
    (files : option (dict pyval)) (self : QBittorrentRPC) (tr : trace)
    (r : response) (jar : cookiejar) (a : pyval) (address : str)
    (Hno : no_cookies (cookies self) = true)
    (Hserver : server (tr ++ [Login_called]) (login_request_ self)
               = Responded r)
    (Hstatus : status_code r = 200%Z) (Htext : text r = py "Ok.")
    (Hjar : resp_cookies r = Some jar)
    (Haction : dict_get (py "action") data = Some a)
    (Haddress : get_request_url_ self data = Ok address) :
  exists res req,
    auth_query_ data files self tr =
    (res, with_cookies self (Some jar),
     tr ++ [Login_called; Requested (login_request_ self); Requested req]) /\
    kw_cookies req = Some jar /\ req_url req = address.
Proof.
  unfold auth_query, bindM at 1, get_self. unfold bindM. rewrite Hno.
  rewrite (login_stores urljoin str_mod server self tr Hserver Hstatus Htext Hjar).
  assert (Ha : get_request_url_ (with_cookies self (Some jar)) data = Ok address)
    by exact Haddress.
  rewrite (query_sends data files (with_cookies self (Some jar)) _ Haction Ha).
  eexists _, (request_of (with_cookies self (Some jar)) data files address).
  rewrite <- app_assoc. split; [reflexivity|].
  destruct (request_of_fields (with_cookies self (Some jar)) data files address)
    as [Hc [_ [_ Hu]]].
  split; [exact Hc | exact Hu].
Qed.

(** X15: on an object without cookies, when the login is not accepted,
    [auth_query] raises the exception of [login] and does not send its own
    request. *)
Theorem auth_query_stops_when_login_fails (data : dict pyval)
    (files : option (dict pyval)) (self : QBittorrentRPC) (tr : trace)
    (Hno : no_cookies (cookies self) = true)
    (Hrejected :
       server (tr ++ [Login_called]) (login_request_ self) = Failed \/
       exists r,
         server (tr ++ [Login_called]) (login_request_ self) = Responded r /\
         (status_code r <> 200%Z \/ text r <> py "Ok." \/
          resp_cookies r = None)) :
  auth_query_ data files self tr =
  (Raise QBittorrentRPCException, self,
   tr ++ [Login_called; Requested (login_request_ self)]).
Proof.
  unfold auth_query, bindM at 1, get_self. unfold bindM. rewrite Hno.
  now rewrite (login_raises urljoin str_mod server self tr Hrejected).
Qed.

End MoreSession.

(** ** The operations on an object that has cookies *)

Lemma bindM_Ok_inv {A B} (m : M A) (f : A -> M B) self tr b self' tr' :
  bindM m f self tr = (Ok b, self', tr') ->
  exists a s1 t1, m self tr = (Ok a, s1, t1) /\ f a s1 t1 = (Ok b, self', tr').
Proof.
  unfold bindM. destruct (m self tr) as [[[a|e] s1] t1]; [eauto|discriminate].
Qed.

Lemma lift_Ok_inv {A} (r : result A) self tr a s1 t1 :
  lift r self tr = (Ok a, s1, t1) -> r = Ok a /\ s1 = self /\ t1 = tr.
Proof. unfold lift. intros [= -> -> ->]. auto. Qed.

Section Operations.

Variable urljoin : str -> str -> str.
Variable str_mod : str -> pyval -> result str.
Variable server : trace -> request -> outcome.

Lemma auth_query_with_cookies (data : dict pyval) (files : option (dict pyval))
    (self : QBittorrentRPC) (tr : trace) :
  no_cookies (cookies self) = false ->
  auth_query urljoin str_mod server data files self tr
  = query urljoin str_mod server data files self tr.
Proof.
  intros H. unfold auth_query, bindM at 1, get_self. unfold bindM.
  now rewrite H.
Qed.

(** X16: on an object that has cookies, [method_remove_torrent] sends one POST,
    to the path that deletes the data too when [with_data] is set and to
    the path that keeps the data otherwise, with the hash as the form field
    'hashes' and no files. *)
Theorem method_remove_torrent_request (hash_str : str) (with_data : bool)
    (self : QBittorrentRPC) (tr : trace)
    (Hcookies : no_cookies (cookies self) = false) :
  exists res req,
    method_remove_torrent urljoin str_mod server hash_str with_data self tr
    = (res, self, tr ++ [Requested req]) /\
    req_method req = POST /\
    req_url req =
      urljoin (url self)
        (if with_data then py "command/deletePerm" else py "command/delete") /\
    form_field (py "hashes") (PStr hash_str) req /\
    kw_data req = Some (PDict [(py "hashes", PStr hash_str)]) /\
    kw_files req = None /\
    kw_cookies req = cookies self.
Proof.
  unfold method_remove_torrent. rewrite (auth_query_with_cookies _ _ _ _ Hcookies).
  destruct with_data.
  - erewrite query_sends; [|reflexivity|reflexivity].
    eexists _, _. split; [reflexivity|].
    repeat split. eexists. split; reflexivity.
  - erewrite query_sends; [|reflexivity|reflexivity].
    eexists _, _. split; [reflexivity|].
    repeat split. eexists. split; reflexivity.
Qed.

(** X17: on an object that has cookies, [method_get_version] sends one GET to
    the path of the version, without a body, and returns the text of the
    response when its status is 200; otherwise it raises the exception of
    the module. *)
Theorem method_get_version_text (self : QBittorrentRPC) (tr : trace)
    (Hcookies : no_cookies (cookies self) = false) :
  let req := {| req_method := GET;
                req_url := urljoin (url self) (py "version/api");
                kw_cookies := cookies self;
                kw_data := None; kw_files := None |} in
  method_get_version urljoin str_mod server self tr =
  (match server tr req with
   | Responded r =>
       if (status_code r =? 200)%Z then Ok (text r)
       else Raise QBittorrentRPCException
   | Failed => Raise QBittorrentRPCException
   end, self, tr ++ [Requested req]).
Proof.
  intros req. unfold method_get_version, bindM.
  rewrite (auth_query_with_cookies _ _ _ _ Hcookies).
  erewrite query_sends; [|reflexivity|reflexivity].
  change (request_of self (build_params (Some (py "api_version_path")) None)
            None (urljoin (url self) (py "version/api"))) with req.
  destruct (server tr req) as [r|]; [|reflexivity].
  destruct (status_code r =? 200)%Z; reflexivity.
Qed.

End Operations.

(** ** The list of the torrents *)

Section ListingFacts.

Variable urljoin : str -> str -> str.
Variable str_mod : str -> pyval -> result str.
Variable server : trace -> request -> outcome.
Variable normalize_field_names : jvalue -> result jvalue.
Variable param_of_json : jvalue -> pyval.

Local Abbreviation loop_ :=
  (get_torrents_loop urljoin str_mod server normalize_field_names
     param_of_json).
Local Abbreviation method_get_torrents_ :=
  (method_get_torrents urljoin str_mod server normalize_field_names
     param_of_json).

Lemma auth_query_json_with_cookies (data : dict pyval)
    (files : option (dict pyval)) (self : QBittorrentRPC) (tr : trace)
    (v : jvalue) (self' : QBittorrentRPC) (tr' : trace) :
  no_cookies (cookies self) = false ->
  auth_query_json urljoin str_mod server data files self tr = (Ok v, self', tr') ->
  self' = self /\ exists req, tr' = tr ++ [Requested req].
Proof.
  intros Hc H.
  destruct (auth_query_json_run urljoin str_mod server data files self tr)
    as [res [s1 [ev [own [E [_ [Hev [_ [Ho Hr]]]]]]]]].
  rewrite Hc in Hev. destruct Hev as [-> ->].
  rewrite H in E. injection E as <- -> ->. split; [reflexivity|].
  destruct Ho as [->|[u [_ ->]]]; [now elim (Hr v)|].
  eexists. reflexivity.
Qed.

Lemma loop_records (hashes : option (list str)) (items : list jvalue) :
  forall acc self tr records self' tr',
    loop_ hashes items acc self tr = (Ok records, self', tr') ->
    exists new, records = acc ++ new /\ Forall (wanted_record hashes) new.
Proof.
  induction items as [|x items IH]; intros acc self tr records self' tr' H.
  - injection H as <- _ _. exists []. rewrite app_nil_r. auto.
  - cbn [get_torrents_loop] in H.
    apply bindM_Ok_inv in H. destruct H as [td [s1 [t1 [H1 H]]]].
    apply bindM_Ok_inv in H. destruct H as [h [s2 [t2 [H2 H]]]].
    destruct (hash_wanted hashes h) eqn:Hw; [|now apply IH in H].
    apply bindM_Ok_inv in H. destruct H as [ad [s3 [t3 [H3 H]]]].
    apply bindM_Ok_inv in H. destruct H as [ad' [s4 [t4 [H4 H]]]].
    apply bindM_Ok_inv in H. destruct H as [n [s5 [t5 [H5 H]]]].
    apply bindM_Ok_inv in H. destruct H as [d [s6 [t6 [H6 H]]]].
    apply bindM_Ok_inv in H. destruct H as [c [s7 [t7 [H7 H]]]].
    apply IH in H. destruct H as [new [-> Hnew]].
    exists (torrent_record h n d c :: new). rewrite <- app_assoc.
    split; [reflexivity|]. constructor; [|exact Hnew].
    exists h, n, d, c. auto.
Qed.

Lemma loop_requests (hashes : option (list str)) (items : list jvalue) :
  forall acc self tr records self' tr',
    no_cookies (cookies self) = false ->
    loop_ hashes items acc self tr = (Ok records, self', tr') ->
    self' = self /\
    exists own,
      tr' = tr ++ own /\
      List.length acc + List.length own = List.length records /\
      login_calls own = 0.
Proof.
  induction items as [|x items IH]; intros acc self tr records self' tr' Hc H.
  - injection H as <- <- <-. split; [reflexivity|]. exists [].
    rewrite app_nil_r. repeat split. simpl. lia.
  - cbn [get_torrents_loop] in H.
    apply bindM_Ok_inv in H. destruct H as [td [s1 [t1 [H1 H]]]].
    apply lift_Ok_inv in H1. destruct H1 as [_ [-> ->]].
    apply bindM_Ok_inv in H. destruct H as [h [s2 [t2 [H2 H]]]].
    apply lift_Ok_inv in H2. destruct H2 as [_ [-> ->]].
    destruct (hash_wanted hashes h) eqn:Hw; [|now apply IH in H].
    apply bindM_Ok_inv in H. destruct H as [ad [s3 [t3 [H3 H]]]].
    apply (auth_query_json_with_cookies _ _ _ _ Hc) in H3.
    destruct H3 as [-> [req ->]].
    apply bindM_Ok_inv in H. destruct H as [ad' [s4 [t4 [H4 H]]]].
    apply lift_Ok_inv in H4. destruct H4 as [_ [-> ->]].
    apply bindM_Ok_inv in H. destruct H as [n [s5 [t5 [H5 H]]]].
    apply lift_Ok_inv in H5. destruct H5 as [_ [-> ->]].
    apply bindM_Ok_inv in H. destruct H as [d [s6 [t6 [H6 H]]]].
    apply lift_Ok_inv in H6. destruct H6 as [_ [-> ->]].
    apply bindM_Ok_inv in H. destruct H as [c [s7 [t7 [H7 H]]]].
    apply lift_Ok_inv in H7. destruct H7 as [_ [-> ->]].
    apply IH in H; [|exact Hc]. destruct H as [-> [own [-> [Hl Hn]]]].
    split; [reflexivity|]. exists (Requested req :: own).
    rewrite <- app_assoc. split; [reflexivity|]. split.
    + rewrite length_app in Hl. simpl in *. lia.
    + exact Hn.
Qed.

(** X18: every record that [method_get_torrents] returns has the four entries
    'hash', 'name', 'download_to' and 'comment', in this order, and its
    hash is one of [hashes] when [hashes] is given. *)
Theorem method_get_torrents_filter (hashes : option (list str))
    (self : QBittorrentRPC) (tr : trace) (records : list jvalue)
    (self' : QBittorrentRPC) (tr' : trace)
    (Hrun : method_get_torrents_ hashes self tr = (Ok records, self', tr')) :
  Forall (fun rec =>
            exists hash name download_to comment,
              rec = torrent_record hash name download_to comment /\
              hash_wanted hashes hash = true) records.
Proof.
  unfold method_get_torrents in Hrun.
  apply bindM_Ok_inv in Hrun. destruct Hrun as [v [s1 [t1 [_ H]]]].
  apply bindM_Ok_inv in H. destruct H as [items [s2 [t2 [_ H]]]].
  apply loop_records in H. destruct H as [new [-> Hnew]]. exact Hnew.
Qed.

(** X19: on an object that has cookies, [method_get_torrents] that returns has
    sent one request for the list and one more for each record that it
    returns, has not logged in and has left the object as it was. *)
Theorem method_get_torrents_requests (hashes : option (list str))
    (self : QBittorrentRPC) (tr : trace) (records : list jvalue)
    (self' : QBittorrentRPC) (tr' : trace)
    (Hcookies : no_cookies (cookies self) = false)
    (Hrun : method_get_torrents_ hashes self tr = (Ok records, self', tr')) :
  self' = self /\
  exists own,
    tr' = tr ++ own /\
    List.length own = S (List.length records) /\
    login_calls own = 0 /\
    Forall (fun e => exists req, e = Requested req) own.
Proof.
  unfold method_get_torrents in Hrun.
  apply bindM_Ok_inv in Hrun. destruct Hrun as [v [s1 [t1 [H1 H]]]].
  apply (auth_query_json_with_cookies _ _ _ _ Hcookies) in H1.
  destruct H1 as [-> [req ->]].
  apply bindM_Ok_inv in H. destruct H as [items [s2 [t2 [H2 H]]]].
  apply lift_Ok_inv in H2. destruct H2 as [_ [-> ->]].
  apply (loop_requests _ _ _ _ _ Hcookies) in H.
  destruct H as [-> [own [-> [Hl Hn]]]].
  split; [reflexivity|]. exists (Requested req :: own).
  rewrite <- app_assoc. split; [reflexivity|].
  split; [simpl in *; lia|]. split; [exact Hn|].
  constructor; [eauto|].
  clear - Hn. induction own as [|[|r] own IH]; [constructor | discriminate |].
  constructor; [eauto | now apply IH].
Qed.

End ListingFacts.

(** ** The operations on the sample servers *)

Lemma query_unknown_action_witness :
  query sample_urljoin sample_str_mod server_with_cookie
    (build_params (Some (py "pause")) None) None fresh []
  = (Raise QBittorrentRPCException, fresh, []).
Proof.
  apply (@query_unknown_action sample_urljoin sample_str_mod server_with_cookie
           (build_params (Some (py "pause")) None) None fresh [] (py "pause"));
    reflexivity.
Defined.

Lemma query_outcome_witness :
  exists res req,
    query sample_urljoin sample_str_mod server_with_cookie
      (build_params (Some (py "api_version_path")) None) None fresh []
    = (res, fresh, [] ++ [Requested req]).
Proof.
  destruct (@query_outcome sample_urljoin sample_str_mod server_with_cookie
              (build_params (Some (py "api_version_path")) None) None fresh []
              (PStr (py "api_version_path"))
              (py "http://localhost:8080/version/api") eq_refl eq_refl)
    as [res [E _]].
  eexists _, _. exact E.
Defined.

Lemma auth_query_attaches_new_cookies_witness :
  exists res req,
    auth_query sample_urljoin sample_str_mod server_with_cookie
      (build_params (Some (py "api_version_path")) None) None fresh []
    = (res, with_cookies fresh (Some [(py "SID", py "0123abcd")]),
       [] ++ [Login_called; Requested (login_request sample_urljoin fresh);
              Requested req]) /\
    kw_cookies req = Some [(py "SID", py "0123abcd")] /\
    req_url req = py "http://localhost:8080/version/api".
Proof.
  apply (@auth_query_attaches_new_cookies sample_urljoin sample_str_mod
           server_with_cookie
           (build_params (Some (py "api_version_path")) None) None fresh []
           (sample_response (Some [(py "SID", py "0123abcd")]))
           [(py "SID", py "0123abcd")] (PStr (py "api_version_path")));
    reflexivity.
Defined.

Lemma auth_query_stops_when_login_fails_witness :
  auth_query sample_urljoin sample_str_mod server_down
    (build_params (Some (py "api_version_path")) None) None fresh []
  = (Raise QBittorrentRPCException, fresh,
     [] ++ [Login_called; Requested (login_request sample_urljoin fresh)]).
Proof.
  apply (@auth_query_stops_when_login_fails sample_urljoin sample_str_mod
           server_down);
    [reflexivity | left; reflexivity].
Defined.

Lemma method_remove_torrent_request_witness :
  exists res req,
    method_remove_torrent sample_urljoin sample_str_mod server_with_cookie
      (py "0a1b") true logged_in []
    = (res, logged_in, [] ++ [Requested req]) /\
    req_method req = POST /\
    req_url req = py "http://localhost:8080/command/deletePerm".
Proof.
  destruct (@method_remove_torrent_request sample_urljoin sample_str_mod
              server_with_cookie (py "0a1b") true logged_in [] eq_refl)
    as [res [req [E [Hm [Hu _]]]]].
  exists res, req. split; [exact E|]. split; [exact Hm | exact Hu].
Defined.

Lemma method_get_version_text_witness :
  exists req,
    method_get_version sample_urljoin sample_str_mod server_with_cookie
      logged_in []
    = (Ok (py "Ok."), logged_in, [] ++ [Requested req]).
Proof.
  eexists.
  exact (@method_get_version_text sample_urljoin sample_str_mod
           server_with_cookie logged_in [] eq_refl).
Defined.

Lemma method_get_torrents_filter_witness :
  exists records self' tr',
    method_get_torrents sample_urljoin sample_str_mod server_listing
      sample_normalize sample_param (Some [py "2c3d"]) logged_in []
    = (Ok records, self', tr') /\
    records <> [] /\
    Forall (fun rec =>
              exists hash name download_to comment,
                rec = torrent_record hash name download_to comment /\
                hash_wanted (Some [py "2c3d"]) hash = true) records.
Proof.
  do 3 eexists. split; [lazy; reflexivity|]. split; [discriminate|].
  eapply (@method_get_torrents_filter sample_urljoin sample_str_mod
            server_listing sample_normalize sample_param (Some [py "2c3d"])
            logged_in []).
  lazy. reflexivity.
Defined.

Lemma method_get_torrents_requests_witness :
  exists records tr',
    method_get_torrents sample_urljoin sample_str_mod server_listing
      sample_normalize sample_param None logged_in []
    = (Ok records, logged_in, tr') /\
    List.length records = 2 /\ List.length tr' = 3.
Proof.
  do 2 eexists. split; [lazy; reflexivity|]. split; [reflexivity|].
  match goal with
  | |- List.length ?T = 3 =>
      assert (Hrun : method_get_torrents sample_urljoin sample_str_mod
                       server_listing sample_normalize sample_param None
                       logged_in []
                     = (Ok [torrent_record (JStr (py "0a1b")) (JStr (py "first"))
                              (JStr (py "/data/one"))
                              (JStr (py "from the tracker"));
                            torrent_record (JStr (py "2c3d")) (JStr (py "second"))
                              (JStr (py "/data/two"))
                              (JStr (py "from the tracker"))],
                        logged_in, T))
        by (lazy; reflexivity)
  end.
  apply method_get_torrents_requests in Hrun; [|reflexivity].
  destruct Hrun as [_ [own [E [Hl _]]]].
  simpl in E. rewrite E. exact Hl.
Defined.

(** C7 at a server that answers the login request with status 200, the body
    'Ok.' and a jar without cookies, and that lists two torrents: on a new
    object, which has no cookies, [method_get_torrents] returns the two
    records, and it has called [login] three times, once before each of
    its three requests; the object has no cookies after it. *)
Theorem method_get_torrents_logs_in_again :
  no_cookies (cookies fresh) = true
  /\ exists self' req1 req2 req3,
       method_get_torrents sample_urljoin sample_str_mod
         server_listing_without_cookie sample_normalize sample_param None
         fresh []
       = (Ok [torrent_record (JStr (py "0a1b")) (JStr (py "first"))
                (JStr (py "/data/one")) (JStr (py "from the tracker"));
              torrent_record (JStr (py "2c3d")) (JStr (py "second"))
                (JStr (py "/data/two")) (JStr (py "from the tracker"))],
          self',
          [Login_called; Requested (login_request sample_urljoin fresh);
           Requested req1;
           Login_called; Requested (login_request sample_urljoin fresh);
           Requested req2;
           Login_called; Requested (login_request sample_urljoin fresh);
           Requested req3])
       /\ login_calls
            [Login_called; Requested (login_request sample_urljoin fresh);
             Requested req1;
             Login_called; Requested (login_request sample_urljoin fresh);
             Requested req2;
             Login_called; Requested (login_request sample_urljoin fresh);
             Requested req3] = 3
       /\ req_url req1 = py "http://localhost:8080/query/torrents"
       /\ req_url req2 = py "http://localhost:8080/query/propertiesGeneral/0a1b"
       /\ req_url req3 = py "http://localhost:8080/query/propertiesGeneral/2c3d"
       /\ no_cookies (cookies self') = true.
Proof.
  split; [reflexivity|].
  do 4 eexists. split; [lazy; reflexivity|]. repeat split.
Qed.

(** With a server that sets a cookie the same call logs in once, before its
    first request. *)
Lemma method_get_torrents_one_login :
  exists records req1 req2 req3,
    method_get_torrents sample_urljoin sample_str_mod
      server_listing_with_cookie sample_normalize sample_param None fresh []
    = (Ok records, logged_in,
       [Login_called; Requested (login_request sample_urljoin fresh);
        Requested req1; Requested req2; Requested req3])
    /\ List.length records = 2.
Proof. do 4 eexists. split; [lazy; reflexivity | reflexivity]. Qed.

(** * The selector on a response that it can read *)

Lemma sort_desc_head {A} (l : list (list Z * A)) :
  forall p r, sort_desc l = p :: r ->
  exists l1 l2,
    l = l1 ++ p :: l2 /\
    (forall q, In q l1 -> tuple_ltb (fst q) (fst p) = true) /\
    (forall q, In q l2 -> tuple_leb (fst q) (fst p) = true).
Proof.
  induction l as [|x l IH]; intros p r H; [discriminate|].
  cbn [sort_desc] in H.
  destruct (sort_desc l) as [|y r'] eqn:E.
  - injection H as <- <-.
    pose proof (sort_desc_perm l) as P. rewrite E in P.
    apply Permutation_sym, Permutation_nil in P. subst l.
    exists [], []. repeat split; intros q [].
  - cbn [insert_desc] in H.
    destruct (tuple_leb (fst y) (fst x)) eqn:L.
    + injection H as <- <-. exists [], l. split; [reflexivity|].
      split; [intros q []|]. intros q Hq.
      apply (Permutation_in _ (sort_desc_perm l)) in Hq. rewrite E in Hq.
      pose proof (sort_desc_sorted l) as S. rewrite E in S.
      destruct Hq as [<-|Hq]; [exact L|].
      inversion S as [|? ? _ Hall]; subst. rewrite Forall_forall in Hall.
      exact (tuple_leb_trans _ _ _ (Hall q Hq) L).
    + injection H as <- <-.
      destruct (IH _ _ eq_refl) as [l1 [l2 [-> [H1 H2]]]].
      exists (x :: l1), l2. split; [reflexivity|]. split; [|exact H2].
      intros q [<-|Hq]; [|now apply H1].
      unfold tuple_leb in L. now apply negb_false_iff in L.
Qed.

Lemma mapM_Ok_inv {A B} (f : A -> result B) (l : list A) (bs : list B) :
  mapM f l = Ok bs -> Forall2 (fun a b => f a = Ok b) l bs.
Proof.
  revert bs. induction l as [|a l IH]; intros bs H.
  - injection H as <-. constructor.
  - cbn [mapM] in H. apply bind_Ok_inv in H. destruct H as [b [Hb H]].
    apply bind_Ok_inv in H. destruct H as [bs' [Hbs H]].
    injection H as <-. constructor; [exact Hb | now apply IH].
Qed.

Section Readable.

Variable U : unicode_db.

(** X20: the series that is taken stands in the groups after series that are
    smaller only, and no series after it is greater: of the greatest
    series, it is the first in the order of the response. *)
Theorem sorted_takes_first_of_greatest (ks : list str) (s0 : str)
    (rest : list str)
    (Hsorted : sorted_by_to_tuple_reverse U ks = Ok (s0 :: rest)) :
  exists l1 l2 t0,
    ks = l1 ++ s0 :: l2 /\ to_tuple U s0 = Ok t0 /\
    (forall k, In k l1 ->
       exists t, to_tuple U k = Ok t /\ tuple_ltb t t0 = true) /\
    (forall k, In k l2 ->
       exists t, to_tuple U k = Ok t /\ tuple_ltb t0 t = false).
Proof.
  unfold sorted_by_to_tuple_reverse in Hsorted.
  apply bind_Ok_inv in Hsorted. destruct Hsorted as [dec [Hd H]].
  injection H as H.
  apply mapM_Ok_inv, Forall2_map_snd in Hd. destruct Hd as [Hks Ht].
  destruct (sort_desc dec) as [|p r] eqn:E; [discriminate|].
  injection H as <- _.
  destruct (sort_desc_head _ E) as [d1 [d2 [-> [H1 H2]]]].
  rewrite Forall_forall in Ht.
  exists (List.map snd d1), (List.map snd d2), (fst p).
  split; [now rewrite <- Hks, map_app|].
  split; [apply Ht, in_or_app; right; now left|]. split.
  - intros k Hk. apply in_map_iff in Hk. destruct Hk as [q [<- Hq]].
    exists (fst q). split; [apply Ht, in_or_app; now left | now apply H1].
  - intros k Hk. apply in_map_iff in Hk. destruct Hk as [q [<- Hq]].
    exists (fst q). split; [apply Ht, in_or_app; right; now right|].
    apply H2 in Hq. unfold tuple_leb in Hq. now apply negb_true_iff in Hq.
Qed.

Lemma fill_qualities_total (g : list jvalue) :
  (forall t, In t g -> readable_variant U t) ->
  forall acc, exists m,
    fill_qualities U g acc = Ok m /\ (g <> [] \/ acc <> [] -> m <> []).
Proof.
  induction g as [|t g IH]; intros Hr acc.
  - exists acc. split; [reflexivity|]. intros [H|H]; congruence.
  - destruct (Hr t (or_introl eq_refl)) as [s [q [k [u [_ [_ [Hq [Hk Hu]]]]]]]].
    destruct (IH (fun t' H' => Hr t' (or_intror H'))
                 (dict_set k (HOST ++ u) acc)) as [m [Hm Hne]].
    exists m. rewrite fill_qualities_cons, Hq. cbn [bind].
    rewrite Hk. cbn [bind]. rewrite Hu. cbn [bind host_plus].
    split; [exact Hm|]. intros _. apply Hne. right. apply dict_set_not_nil.
Qed.

(** X21: when the status of the response is true ([bool] of the value, so a
    float that was decoded to zero is not), every variant can be read (of a
    series that passes the filter, each number has 4300 digits at most) and
    some variant passes the filter, [get_download_link] returns a link, and
    the link is not empty. *)
Theorem get_download_link_returns (prefs : list str)
    (d : list (str * jvalue)) (data torrents : jvalue) (items : list jvalue)
    (Hstatus : truthy (match dict_get (py "status") d with
                       | Some v => v
                       | None => JBool false
                       end) = true)
    (Hdata : getitem (JObj d) (py "data") = Ok data)
    (Htorrents : getitem data (py "torrents") = Ok torrents)
    (Hitems : py_iter torrents = Ok items)
    (Hreadable : forall t, In t items -> readable_variant U t)
    (Hsome : exists t s, In t items /\
               getitem t (py "series") = Ok (JStr s) /\
               REGEX_RANGE_match U s = true) :
  exists link, get_download_link U prefs (JObj d) = Ok link /\ link <> [].
Proof.
  assert (Hser : forall t, In t items ->
            exists s, getitem t (py "series") = Ok (JStr s)).
  { intros t Ht. destruct (Hreadable t Ht) as [s [_ [_ [_ [Hs _]]]]]. eauto. }
  destruct (group_by_series_total U items [] Hser) as [s2t Hg].
  destruct (group_by_series_keys _ _ _ Hg) as [_ Hne];
    [constructor | intros k [] |].
  assert (Hf : forall k, defaultdict_get k s2t =
                 if REGEX_RANGE_match U k then filter (has_series k) items
                 else []).
  { intros k. now rewrite (group_by_series_filter _ _ _ k Hg). }
  (* every key parses as a pair *)
  assert (Hpairs : forall k, In k (keys s2t) ->
            exists a b : Z, to_tuple U k = Ok [a; b]).
  { intros k Hk. apply Hne in Hk. rewrite Hf in Hk.
    destruct (REGEX_RANGE_match U k) eqn:Em; [|congruence].
    destruct (filter (has_series k) items) as [|t l] eqn:E; [congruence|].
    assert (Ht : In t (filter (has_series k) items)) by (rewrite E; now left).
    apply filter_In in Ht. destruct Ht as [Hin Hs].
    apply has_series_true in Hs.
    destruct (Hreadable t Hin) as [s [_ [_ [_ [Hs' [Hrange _]]]]]].
    assert (s = k) by congruence. subst s.
    destruct (Hrange Em) as [a [b [-> [Ha [Hb [Hane [Hbne [Hal Hbl]]]]]]]].
    exists (digits_value a), (digits_value b). unfold to_tuple.
    rewrite split_first by (apply digits_no; [lia | assumption]).
    rewrite split_whole by (apply digits_no; [lia | assumption]).
    cbn [mapM bind].
    rewrite (@py_int_digits U a Ha Hane), (@py_int_digits U b Hb Hbne)
      by now apply Nat.leb_le.
    reflexivity. }
  (* the groups are not empty *)
  assert (Hkeys : keys s2t <> []).
  { destruct Hsome as [t [s [Hin [Hs Hm]]]].
    assert (Ht : In t (defaultdict_get s s2t)).
    { rewrite Hf, Hm. apply filter_In. split; [exact Hin|].
      now apply has_series_true. }
    unfold defaultdict_get in Ht.
    destruct (dict_get s s2t) as [l|] eqn:E; [|destruct Ht].
    apply dict_get_In in E. intros Hk.
    assert (Hin' : In s (keys s2t))
      by (change s with (fst (s, l)); now apply in_map).
    rewrite Hk in Hin'. destruct Hin'. }
  destruct (sorted_by_to_tuple_reverse_spec U _ Hpairs) as [ss [E [Pm _]]].
  destruct ss as [|s0 rest].
  { apply Permutation_sym, Permutation_nil in Pm. congruence. }
  assert (Hs0 : In s0 (keys s2t))
    by (apply (Permutation_in _ (Permutation_sym Pm)); now left).
  assert (Hgroup : forall t, In t (defaultdict_get s0 s2t) ->
             readable_variant U t).
  { intros t Ht.
    destruct (@group_by_series_members U items [] s2t s0 t Hg Ht)
      as [[]|[Hin _]]. now apply Hreadable. }
  destruct (fill_qualities_total _ Hgroup []) as [m [Hm Hmne]].
  assert (Hm' : m <> []) by (apply Hmne; left; now apply Hne).
  destruct (@pick_link_spec U prefs m Hm') as [link [Hp [Hin _]]].
  exists link. split.
  - unfold get_download_link, find_available_qualities.
    cbn [py_get bind]. rewrite Hstatus. cbn [negb].
    rewrite Hdata. cbn [bind]. rewrite Htorrents. cbn [bind].
    rewrite Hitems. cbn [bind].
    unfold selected_series. rewrite Hg. cbn [bind]. rewrite E.
    cbn [bind first_of]. rewrite Hm. exact Hp.
  - apply in_map_iff in Hin. destruct Hin as [[k v] [<- Hin]].
    destruct (fill_qualities_links U _ _ k v Hm Hin)
      as [[]|[t [u [_ [_ ->]]]]].
    apply HOST_app_not_nil.
Qed.

End Readable.

Lemma sorted_takes_first_of_greatest_witness :
  exists l1 l2 t0,
    [py "1-20"; py "21-41"; py "021-41"] = l1 ++ py "21-41" :: l2 /\
    to_tuple ucd_rows (py "21-41") = Ok t0 /\
    (forall k, In k l1 ->
       exists t, to_tuple ucd_rows k = Ok t /\ tuple_ltb t t0 = true) /\
    (forall k, In k l2 ->
       exists t, to_tuple ucd_rows k = Ok t /\ tuple_ltb t0 t = false).
Proof.
  exact (@sorted_takes_first_of_greatest ucd_rows
           [py "1-20"; py "21-41"; py "021-41"] (py "21-41")
           [py "021-41"; py "1-20"] eq_refl).
Defined.

Lemma get_download_link_returns_witness :
  exists link,
    get_download_link ucd_rows [py "WEBRip 720p"] (release two_batches)
    = Ok link /\ link <> [].
Proof.
  apply (@get_download_link_returns ucd_rows [py "WEBRip 720p"] _
           (JObj [(py "torrents", JArr two_batches)]) (JArr two_batches)
           two_batches); try reflexivity.
  - simpl. intros t [<-|[<-|[<-|[<-|[]]]]].
    + exists (py "1-20"), (JStr (py "WEBRip 1080p")), (py "webrip1080p"),
        (py "/upload/a.torrent").
      repeat split. intros _. exists (py "1"), (py "20").
      repeat split; discriminate.
    + exists (py "21-41"), (JStr (py "HDTVRip 720p")), (py "hdtvrip720p"),
        (py "/upload/b.torrent").
      repeat split. intros _. exists (py "21"), (py "41").
      repeat split; discriminate.
    + exists (py "21-41"), (JStr (py "HDTVRip-720p")), (py "hdtvrip720p"),
        (py "/upload/c.torrent").
      repeat split. intros _. exists (py "21"), (py "41").
      repeat split; discriminate.
    + exists (py "21-41"), (JStr (py "WEBRip 720p")), (py "webrip720p"),
        (py "/upload/d.torrent").
      repeat split. intros _. exists (py "21"), (py "41").
      repeat split; discriminate.
  - exists (variant "1-20" "WEBRip 1080p" "/upload/a.torrent"), (py "1-20").
    repeat split. simpl. tauto.
Defined.

(** X22: every link of a mapping that is not empty comes from a variant of one
    series, the one that [sorted] put first among the series of the
    variants of the response: the variants of the other series give no
    link. *)
Theorem find_available_qualities_one_series (U : unicode_db) (json : jvalue)
    (m : dict str)
    (Hfind : find_available_qualities U json = Ok m) (Hm : m <> []) :
  exists data torrents items s0 s2t,
    getitem json (py "data") = Ok data /\
    getitem data (py "torrents") = Ok torrents /\
    py_iter torrents = Ok items /\
    selected_series U items = Ok (s0, s2t) /\
    forall k v, In (k, v) m ->
      exists t u,
        In t items /\ getitem t (py "series") = Ok (JStr s0) /\
        getitem t (py "url") = Ok (JStr u) /\ v = HOST ++ u.
Proof.
  destruct (@find_available_qualities_inv U json m Hfind Hm) as
    [data [torrents [items [s0 [s2t [Hd [Ht [Hi [Hs Hf]]]]]]]]].
  exists data, torrents, items, s0, s2t.
  split; [exact Hd|]. split; [exact Ht|]. split; [exact Hi|].
  split; [exact Hs|]. intros k v Hin.
  destruct (fill_qualities_links U _ _ k v Hf Hin) as [[]|[t [u [Hg [Hu ->]]]]].
  apply selected_series_inv in Hs. destruct Hs as [Hg0 _].
  destruct (@group_by_series_members U items [] s2t s0 t Hg0 Hg)
    as [[]|[Hin' Hser]].
  exists t, u. auto.
Qed.

Lemma find_available_qualities_one_series_witness :
  exists data torrents items s0 s2t,
    getitem (release two_batches) (py "data") = Ok data /\
    getitem data (py "torrents") = Ok torrents /\
    py_iter torrents = Ok items /\
    selected_series ucd_rows items = Ok (s0, s2t) /\
    forall k v, In (k, v) two_batches_qualities ->
      exists t u,
        In t items /\ getitem t (py "series") = Ok (JStr s0) /\
        getitem t (py "url") = Ok (JStr u) /\ v = HOST ++ u.
Proof.
  apply (@find_available_qualities_one_series ucd_rows (release two_batches)
           two_batches_qualities); [reflexivity | discriminate].
Defined.
